(** * Story export: estimator, classifier, front-end export path

    A shallow embedding of the story-export code of the User Story Creation
    Agent: the Python helpers [_estimate_story_points], [_determine_priority]
    and [_determine_component] of the Jira service, the axios response
    interceptor and [jiraAPI.exportStories] of [services/api.js], the
    [handleExport] handler of [JiraExport.js] and the legacy-format
    normalisation of [UserStoryList.js].

    Conventions.
    - Python [int] and JS integral numbers are [Z].
    - Text is [string]; a character is an [ascii].  [len], [lower] and the
      substring test [in] are modelled on that alphabet: only [A]-[Z] have a
      lower-case form, every other character is its own.
    - A Python dict read with [.get(key, default)] is a record of optional
      fields; [None] is the missing key.
    - JS values are the inductive [JsValue]; an omitted or [undefined]
      argument is [None]. *)

From Stdlib Require Import String Ascii List ZArith Lia Bool Arith DecimalString.
Import ListNotations.
Open Scope string_scope.

(* ===================================================================== *)
(** ** Text primitives (Python [str]) *)
(* ===================================================================== *)

Module Text.

Definition is_upper (c : ascii) : bool :=
  let n := nat_of_ascii c in (65 <=? n)%nat && (n <=? 90)%nat.

Definition lower_char (c : ascii) : ascii :=
  if is_upper c then ascii_of_nat (nat_of_ascii c + 32) else c.

(** [s.lower()] *)
Fixpoint lower (s : string) : string :=
  match s with
  | EmptyString => EmptyString
  | String c t => String (lower_char c) (lower t)
  end.

(** [word in text] on two strings: [word] occurs as a contiguous run. *)
Fixpoint str_in (word text : string) : bool :=
  prefix word text ||
  match text with
  | EmptyString => false
  | String _ t => str_in word t
  end.

(** [any(word in text for word in words)] *)
Definition any_word_in (words : list string) (text : string) : bool :=
  existsb (fun word => str_in word text) words.

(** [len(s)] *)
Definition len (s : string) : Z := Z.of_nat (String.length s).

(** Decimal rendering of an integer, as [str(n)] and JS template
    literals do for integral numbers. *)
Definition of_Z (n : Z) : string := NilZero.string_of_int (Z.to_int n).

End Text.

(* ===================================================================== *)
(** ** Story records as the Jira service receives them *)
(* ===================================================================== *)

(** [story_data : Dict[str, Any]] with the two keys the service reads. *)
Record StoryData := mkStoryData {
  story : option string;
  acceptance_criteria : option (list string)
}.

(** [d.get(key, default)] *)
Definition get_default {A : Type} (field : option A) (default : A) : A :=
  match field with
  | Some v => v
  | None => default
  end.

Definition criteria_count (story_data : StoryData) : Z :=
  Z.of_nat (List.length (get_default (acceptance_criteria story_data) [])).

Definition story_length (story_data : StoryData) : Z :=
  Text.len (get_default (story story_data) "").

(* ===================================================================== *)
(** ** Estimator *)
(* ===================================================================== *)

Definition _estimate_story_points (story_data : StoryData) : Z :=
  let base_points := 3%Z in
  let criteria_count :=
    Z.of_nat (List.length (get_default (acceptance_criteria story_data) [])) in
  let points :=
    if (criteria_count <=? 2)%Z then base_points
    else if (criteria_count <=? 4)%Z then (base_points + 2)%Z
    else if (criteria_count <=? 6)%Z then (base_points + 4)%Z
    else (base_points + 6)%Z in
  let points :=
    if (Text.len (get_default (story story_data) "") >? 200)%Z
    then (points + 1)%Z else points in
  let points :=
    if (Text.len (get_default (story story_data) "") >? 400)%Z
    then (points + 1)%Z else points in
  Z.min points 13.

(* ===================================================================== *)
(** ** Classifier *)
(* ===================================================================== *)

(** The five priority names of the tracker, highest first. *)
Inductive Priority := Highest | High | Medium | Low | Lowest.

Definition priority_name (p : Priority) : string :=
  match p with
  | Highest => "Highest" | High => "High" | Medium => "Medium"
  | Low => "Low" | Lowest => "Lowest"
  end.

(** Larger is more urgent. *)
Definition priority_rank (p : Priority) : nat :=
  match p with
  | Highest => 4 | High => 3 | Medium => 2 | Low => 1 | Lowest => 0
  end.

(** The keyword list of [_determine_priority]. *)
Definition urgent_words : list string :=
  ["security"; "login"; "password"; "critical"].

(** [_determine_priority] with its keyword list taken as an argument. *)
Definition determine_priority_with
    (vocabulary : list string) (story_data : StoryData) : string :=
  let story_text := Text.lower (get_default (story story_data) "") in
  if Text.any_word_in vocabulary story_text then "High" else "Medium".

Definition _determine_priority (story_data : StoryData) : string :=
  let story_text := Text.lower (get_default (story story_data) "") in
  if Text.any_word_in ["security"; "login"; "password"; "critical"] story_text
  then "High"
  else "Medium".

Definition _determine_component (story_data : StoryData) : string :=
  let story_text := Text.lower (get_default (story story_data) "") in
  if Text.any_word_in ["login"; "user"; "profile"; "dashboard"] story_text
  then "User Management"
  else if Text.any_word_in ["database"; "data"; "storage"] story_text
  then "Database"
  else if Text.any_word_in ["api"; "endpoint"; "service"] story_text
  then "API"
  else "General".

(** The keyword-to-label table that [_determine_component] spells out, one
    row per keyword, in the order the source tests them. *)
Definition component_table : list (string * string) :=
  [ ("login", "User Management"); ("user", "User Management");
    ("profile", "User Management"); ("dashboard", "User Management");
    ("database", "Database"); ("data", "Database"); ("storage", "Database");
    ("api", "API"); ("endpoint", "API"); ("service", "API") ].

(** The rule as the specification words it: the label of the first row, in
    table order, whose keyword occurs in the lower-cased narrative, and the
    default label when no row matches. *)
Fixpoint first_match (table : list (string * string)) (default text : string)
  : string :=
  match table with
  | [] => default
  | (keyword, label) :: rest =>
      if Text.str_in keyword text then label else first_match rest default text
  end.

Definition classify_component_spec
    (table : list (string * string)) (story_data : StoryData) : string :=
  first_match table "General" (Text.lower (get_default (story story_data) "")).

(** A term that is its own lower-case form. *)
Definition lowercase (w : string) : Prop := Text.lower w = w.

(** A term occurs in a text up to letter case: some contiguous run of the
    text has the same lower-case form as the term. *)
Definition occurs_ignoring_case (term text : string) : Prop :=
  exists before run after,
    text = before ++ run ++ after /\ Text.lower run = Text.lower term.

(* ===================================================================== *)
(** ** JavaScript values *)
(* ===================================================================== *)

Module Js.

(** JSON-shaped values.  Numbers are the integral ones. *)
#[warnings="-register-all"]
Inductive JsValue :=
| JsUndefined
| JsNull
| JsBool (b : bool)
| JsNumber (n : Z)
| JsString (s : string)
| JsArray (items : list JsValue)
| JsObject (fields : list (string * JsValue)).

(** What a failed evaluation throws: an [Error] built by the program, or
    the engine's [TypeError] for a property read on [null]/[undefined]
    or a call of a non-function. *)
Inductive Thrown :=
| ErrorObj (message : string)
| TypeErrorObj (message : string).

Definition thrown_message (e : Thrown) : string :=
  match e with
  | ErrorObj m => m
  | TypeErrorObj m => m
  end.

Definition typeof (v : JsValue) : string :=
  match v with
  | JsUndefined => "undefined"
  | JsNull => "object"
  | JsBool _ => "boolean"
  | JsNumber _ => "number"
  | JsString _ => "string"
  | JsArray _ => "object"
  | JsObject _ => "object"
  end.

(** ToBoolean *)
Definition truthy (v : JsValue) : bool :=
  match v with
  | JsUndefined | JsNull => false
  | JsBool b => b
  | JsNumber n => negb (n =? 0)%Z
  | JsString s => negb (s =? "")
  | JsArray _ | JsObject _ => true
  end.

(** [a || b] *)
Definition or_else (a b : JsValue) : JsValue := if truthy a then a else b.

Fixpoint join (sep : string) (parts : list string) : string :=
  match parts with
  | [] => ""
  | [p] => p
  | p :: rest => p ++ sep ++ join sep rest
  end.

(** ToString; an array prints as its elements joined by commas, with
    [null] and [undefined] elements printed empty. *)
Fixpoint to_string (v : JsValue) : string :=
  match v with
  | JsUndefined => "undefined"
  | JsNull => "null"
  | JsBool true => "true"
  | JsBool false => "false"
  | JsNumber n => Text.of_Z n
  | JsString s => s
  | JsArray items =>
      join ","
        (map (fun x => match x with
                       | JsUndefined | JsNull => ""
                       | _ => to_string x
                       end) items)
  | JsObject _ => "[object Object]"
  end.

Fixpoint lookup (name : string) (fields : list (string * JsValue)) : JsValue :=
  match fields with
  | [] => JsUndefined
  | (k, v) :: rest => if k =? name then v else lookup name rest
  end.

(** The engine's wording of a property read on a nullish base. *)
Definition cannot_read (base name : string) : Thrown :=
  TypeErrorObj
    ("Cannot read properties of " ++ base ++ " (reading '" ++ name ++ "')").

(** [v.name] for a name that is no built-in property: own fields of an
    object, [undefined] on any other non-nullish value, a [TypeError] on
    [null] and [undefined]. *)
Definition get_prop (v : JsValue) (name : string) : Thrown + JsValue :=
  match v with
  | JsUndefined => inl (cannot_read "undefined" name)
  | JsNull => inl (cannot_read "null" name)
  | JsObject fields => inr (lookup name fields)
  | _ => inr JsUndefined
  end.

(** [v.length]: arrays and strings have one, an object may carry a field
    of that name, anything else reads [undefined]. *)
Definition get_length (v : JsValue) : Thrown + JsValue :=
  match v with
  | JsArray items => inr (JsNumber (Z.of_nat (List.length items)))
  | JsString s => inr (JsNumber (Z.of_nat (String.length s)))
  | _ => get_prop v "length"
  end.

(** [v === 0] *)
Definition strict_eq_zero (v : JsValue) : bool :=
  match v with
  | JsNumber n => (n =? 0)%Z
  | _ => false
  end.

(** [new Error(v)] *)
Definition new_Error (v : JsValue) : Thrown := ErrorObj (to_string v).

(** Sequencing of evaluations that may throw. *)
Definition bind {A B : Type} (c : Thrown + A) (k : A -> Thrown + B)
  : Thrown + B :=
  match c with
  | inl e => inl e
  | inr a => k a
  end.

End Js.

Notation "'try!' x <- c ; k" := (Js.bind c (fun x => k))
  (at level 10, x name, c at level 100, k at level 200).

(* ===================================================================== *)
(** ** UserStoryList.js: legacy-format normalisation *)
(* ===================================================================== *)

Module UserStoryList.
Import Js.

(** The [userStories] prop is an array of stories, or is missing:
    [Some items] is the array, [None] is [undefined]. *)
Definition Prop_userStories := option (list JsValue).

(** [userStories && userStories.length > 0 && typeof userStories[0] === 'object'],
    read as a condition. *)
Definition isNewFormat (userStories : Prop_userStories) : bool :=
  match userStories with
  | None => false
  | Some items =>
      (0 <? Z.of_nat (List.length items))%Z
      && (typeof (nth 0 items JsUndefined) =? "object")
  end.

Definition value_of (userStories : Prop_userStories) : JsValue :=
  match userStories with
  | Some items => JsArray items
  | None => JsUndefined
  end.

(** [story => ({ story, acceptance_criteria: [] })] *)
Definition wrap_legacy (story : JsValue) : JsValue :=
  JsObject [("story", story); ("acceptance_criteria", JsArray [])].

(** The [stories] constant of the component, the value handed to
    [JiraExport] as its [userStories] prop; [map] on a missing prop
    throws. *)
Definition stories (userStories : Prop_userStories) : Thrown + JsValue :=
  if isNewFormat userStories then inr (value_of userStories)
  else
    match userStories with
    | Some items => inr (JsArray (map wrap_legacy items))
    | None => inl (cannot_read "undefined" "map")
    end.

Definition is_string (v : JsValue) : Prop := exists s, v = JsString s.
Definition is_object (v : JsValue) : Prop := typeof v = "object".

(** The record carries an [acceptance_criteria] field holding an array. *)
Definition has_criteria_array (v : JsValue) : Prop :=
  exists fields items,
    v = JsObject fields /\ lookup "acceptance_criteria" fields = JsArray items.

End UserStoryList.

(* ===================================================================== *)
(** ** services/api.js: response interceptor and [jiraAPI.exportStories] *)
(* ===================================================================== *)

Module Api.
Import Js.

Record AxiosResponse := mkResponse {
  status : Z;
  data : JsValue
}.

(** The rejection axios passes to the error handler: [error.response] when
    the server answered, [error.request] when a request went out, and
    [error.message]. *)
Record AxiosError := mkAxiosError {
  response : option AxiosResponse;
  request : bool;
  message : option string
}.

(** The body posted to [/jira/export-stories]. *)
Record ExportRequest := mkExportRequest {
  stories : JsValue;
  project_key : string;
  create_epic : bool;
  epic_name : string
}.

(** One call that left the browser. *)
Record Sent := mkSent {
  url : string;
  body : ExportRequest
}.

(** [throw new Error(data.detail || fallback)] *)
Definition throw_detail_or (data : JsValue) (fallback : string) : Thrown :=
  match get_prop data "detail" with
  | inl type_error => type_error
  | inr detail => new_Error (or_else detail (JsString fallback))
  end.

(** The error handler of [api.interceptors.response.use]: what it throws. *)
Definition on_response_error (error : AxiosError) : Thrown :=
  match response error with
  | Some r =>
      let status := status r in
      let data := data r in
      if (status =? 400)%Z then throw_detail_or data "Bad request"
      else if (status =? 404)%Z then throw_detail_or data "Resource not found"
      else if (status =? 500)%Z then throw_detail_or data "Internal server error"
      else throw_detail_or data ("HTTP " ++ Text.of_Z status ++ " error")
  | None =>
      if request error
      then ErrorObj "No response from server. Please check your connection."
      else
        let message :=
          match message error with
          | Some m => JsString m
          | None => JsUndefined
          end in
        new_Error (or_else message (JsString "An unexpected error occurred"))
  end.

(** The success handler returns the response as it is. *)
Definition on_response (r : AxiosResponse) : AxiosResponse := r.

(** What the network does with a posted body. *)
Definition Transport := string -> ExportRequest -> AxiosError + AxiosResponse.

(** [api.post(url, body)] through the two interceptors, with the record of
    the call made. *)
Definition post (transport : Transport) (url : string) (body : ExportRequest)
  : (Thrown + AxiosResponse) * list Sent :=
  (match transport url body with
   | inl error => inl (on_response_error error)
   | inr r => inr (on_response r)
   end,
   [mkSent url body]).

(** A parameter with a default value: the default applies when the argument
    is omitted. *)
Definition default_param {A : Type} (arg : option A) (default : A) : A :=
  match arg with
  | Some a => a
  | None => default
  end.

(** [exportStories: async (stories, projectKey, createEpic = true,
    epicName = "User Stories")] *)
Definition exportStories (transport : Transport)
    (stories : JsValue) (projectKey : string)
    (createEpic : option bool) (epicName : option string)
  : (Thrown + JsValue) * list Sent :=
  let createEpic := default_param createEpic true in
  let epicName := default_param epicName "User Stories" in
  let '(answer, sent) :=
    post transport "/jira/export-stories"
      (mkExportRequest stories projectKey createEpic epicName) in
  (try! response <- answer; inr (data response), sent).

End Api.

(* ===================================================================== *)
(** ** JiraExport.js: the export handler *)
(* ===================================================================== *)

Module JiraExport.
Import Js.

(** The component state that [handleExport] reads and sets. *)
Record State := mkState {
  selectedProject : string;
  epicName : string;
  createEpic : bool;
  exporting : bool;
  error : string;
  success : string
}.

Definition setError (st : State) (e : string) : State :=
  mkState (selectedProject st) (epicName st) (createEpic st) (exporting st)
          e (success st).

Definition setSuccess (st : State) (m : string) : State :=
  mkState (selectedProject st) (epicName st) (createEpic st) (exporting st)
          (error st) m.

Definition setExporting (st : State) (b : bool) : State :=
  mkState (selectedProject st) (epicName st) (createEpic st) b
          (error st) (success st).

(** What the handler does to the outside: calls on the network and the
    [onExportComplete] callback. *)
Inductive Event :=
| Network (call : Api.Sent)
| ExportComplete (export_result : JsValue).

(** [!userStories || userStories.length === 0] *)
Definition no_stories (userStories : JsValue) : bool :=
  negb (truthy userStories) ||
  match get_length userStories with
  | inr n => strict_eq_zero n
  | inl _ => false
  end.

(** [handleExport], from the click to the state after [finally].
    [onExportComplete] tells whether the callback prop was given. *)
Definition handleExport (transport : Api.Transport)
    (userStories : JsValue) (onExportComplete : bool) (st : State)
  : State * list Event :=
  if negb (truthy (JsString (selectedProject st))) then
    (setError st "Please select a Jira project", [])
  else if no_stories userStories then
    (setError st "No user stories to export", [])
  else
    let st := setSuccess (setError (setExporting st true) "") "" in
    let '(answer, sent) :=
      Api.exportStories transport userStories (selectedProject st)
        (Some (createEpic st)) (Some (epicName st)) in
    let attempt : Thrown + State * list Event :=
      try! response <- answer;
      try! export_result <- get_prop response "export_result";
      try! total_exported <- get_prop export_result "total_exported";
      let st := setSuccess st ("Successfully exported "
                               ++ to_string total_exported
                               ++ " stories to Jira!") in
      let called :=
        if onExportComplete then [ExportComplete export_result] else [] in
      try! epic <- get_prop export_result "epic";
      if truthy epic then
        try! key <- get_prop epic "key";
        inr (setSuccess st (success st ++ " Epic created: " ++ to_string key),
             called)
      else inr (st, called) in
    match attempt with
    | inr (st', called) => (setExporting st' false, (map Network sent ++ called)%list)
    | inl err =>
        let shown := or_else (JsString (thrown_message err))
                             (JsString "Failed to export stories to Jira") in
        (setExporting (setError st (to_string shown)) false, map Network sent)
    end.

Definition network_calls (events : list Event) : list Api.Sent :=
  flat_map (fun e => match e with Network c => [c] | ExportComplete _ => [] end)
           events.

End JiraExport.

(* ===================================================================== *)
(** ** The export orchestrator of the Jira service *)
(* ===================================================================== *)

Module Orchestrator.

(** Modelled from the spec: the closed error taxonomy of section 7; the
    Jira service module that raises these errors is not among the sources. *)
Inductive ErrorKind :=
| Validation | Authentication | NotFound | NetworkTimeout | RemoteRejected.

(** Modelled from the spec: an error of the taxonomy with the message shown
    to the user. *)
Record ExportError := mkError {
  kind : ErrorKind;
  message : string
}.

(** Modelled from the spec: IssueRef of section 3, an opaque key and an
    optional URL (the service's own types are not among the sources). *)
Record IssueRef := mkIssueRef {
  key : string;
  url : option string
}.

(** Modelled from the spec: GroupSpec of section 3. *)
Record GroupSpec := mkGroupSpec {
  name : string;
  create : bool
}.

(** Modelled from the spec: ExportOutcome of section 3, a success or a
    failure, each with the index of the story it belongs to, and the
    "not attempted" kind that section 5 gives to the stories a cancelled
    export did not reach. *)
Inductive Outcome :=
| Succeeded (index : nat) (ref : IssueRef)
| Failed (index : nat) (error : ExportError)
| NotAttempted (index : nat).


Definition is_success (o : Outcome) : bool :=
  match o with
  | Succeeded _ _ => true
  | _ => false
  end.

Definition is_failure (o : Outcome) : bool :=
  match o with
  | Failed _ _ => true
  | _ => false
  end.

(** Modelled from the spec: the overall status and ExportResult of
    section 3. *)
Inductive Status := AllSucceeded | PartialFailure | GroupFailed.

Record ExportResult := mkResult {
  group : option IssueRef;
  outcomes : list Outcome;
  total_exported : nat;
  total_failed : nat;
  status : Status
}.

(** A call on the ticket client, as it appears in the trace of a run. *)
Inductive Call :=
| CreateGroupCall (name description : string)
| CreateIssueCall (summary description priority component : string)
                  (effort : Z).

Definition is_create_issue (c : Call) : bool :=
  match c with
  | CreateIssueCall _ _ _ _ _ => true
  | CreateGroupCall _ _ => false
  end.


(** Modelled from the spec: the two creating operations of the TicketClient
    of section 4.3, over a state [T] of the external tracker; each call
    answers with an issue reference or an error of the taxonomy and leaves
    the tracker in a new state. *)
Record TicketClient (T : Type) := mkClient {
  CreateGroup : string -> string -> T -> (ExportError + IssueRef) * T;
  CreateIssue :
    string -> string -> string -> string -> Z -> T
    -> (ExportError + IssueRef) * T
}.

Arguments CreateGroup {T} _ _ _ _.
Arguments CreateIssue {T} _ _ _ _ _ _ _.

(** Modelled from the spec: the ticket description built from a story (the
    service's formatter is not among the sources); the layout is the one the
    test guide shows for a created task, the narrative under a heading and
    the acceptance criteria numbered from 1, one per line. *)
Fixpoint numbered (n : nat) (criteria : list string) : string :=
  match criteria with
  | [] => ""
  | c :: rest =>
      Text.of_Z (Z.of_nat n) ++ ". " ++ c ++ String "010" ""
      ++ numbered (S n) rest
  end.

Definition describe (story_data : StoryData) : string :=
  "**User Story:**" ++ String "010" ""
  ++ get_default (story story_data) "" ++ String "010" (String "010" "")
  ++ "**Acceptance Criteria:**" ++ String "010" ""
  ++ numbered 1 (get_default (acceptance_criteria story_data) []).

(** Modelled from the spec: the cancellation of section 5.  [Some k] is a
    caller that cancels when [k] stories have been completed and before
    story [k] starts; [None] is a caller that never cancels. *)
Definition Cancellation := option nat.

(** Cancellation has been requested by the time the story at [index] would
    start. *)
Definition cancelled (cancel : Cancellation) (index : nat) : bool :=
  match cancel with
  | Some k => (k <=? index)%nat
  | None => false
  end.


(** Modelled from the spec: the CreateIssue call of step 3 for one story,
    with the effort of the estimator and the priority and component of the
    classifier, and the same call as it appears in the trace. *)
Definition create_issue_for {T : Type} (client : TicketClient T)
    (story_data : StoryData) (s : T) : (ExportError + IssueRef) * T :=
  let summary := get_default (story story_data) "" in
  let description := describe story_data in
  let priority := _determine_priority story_data in
  let component := _determine_component story_data in
  let effort := _estimate_story_points story_data in
  CreateIssue client summary description priority component effort s.

Definition call_for (story_data : StoryData) : Call :=
  CreateIssueCall (get_default (story story_data) "") (describe story_data)
    (_determine_priority story_data) (_determine_component story_data)
    (_estimate_story_points story_data).

(** The outcome recorded under [index] for the answer of its call. *)
Definition outcome_of (index : nat) (answer : ExportError + IssueRef) : Outcome :=
  match answer with
  | inr ref => Succeeded index ref
  | inl e => Failed index e
  end.

(** Modelled from the spec: step 3 of section 4.4, the per-story loop, with
    the cancellation of section 5.  For each story in input order, unless
    the export has been cancelled, one CreateIssue call is made and its
    outcome is recorded under the story's index; the loop goes on whatever
    the outcome.  After a cancellation no further call is made and the
    remaining stories are recorded as not attempted. *)
Fixpoint export_each {T : Type} (client : TicketClient T)
    (stories : list StoryData) (index : nat) (cancel : Cancellation) (s : T)
  : list Outcome * list Call * T :=
  match stories with
  | [] => ([], [], s)
  | story_data :: rest =>
      if cancelled cancel index then
        let '(later, calls, s1) :=
          export_each client rest (S index) cancel s in
        (NotAttempted index :: later, calls, s1)
      else
        let '(answer, s1) := create_issue_for client story_data s in
        let '(later, calls, s2) :=
          export_each client rest (S index) cancel s1 in
        (outcome_of index answer :: later, call_for story_data :: calls, s2)
  end.

(** Modelled from the spec: step 4 of section 4.4, counts and status:
    AllSucceeded if every outcome is a success, else PartialFailure. *)
Definition aggregate (group : option IssueRef) (outcomes : list Outcome)
  : ExportResult :=
  let succeeded := List.length (filter is_success outcomes) in
  let failed := List.length (filter is_failure outcomes) in
  mkResult group outcomes succeeded failed
           (if forallb is_success outcomes then AllSucceeded
            else PartialFailure).

(** Modelled from the spec: the description of the parent ticket, which
    states the number of stories. *)
Definition group_description (stories : list StoryData) : string :=
  "Parent task containing " ++ Text.of_Z (Z.of_nat (List.length stories))
  ++ " user stories".

(** Modelled from the spec: Export of section 4.4 (the Jira service module
    that implements it is not among the sources), steps 1 to 5, run
    sequentially, with the cancellation of section 5 and without the
    optional early abort on an authentication error.  A run gives the result
    or a validation error, the trace of client calls in the order made, and
    the tracker's final state. *)
Definition Export {T : Type} (client : TicketClient T)
    (stories : list StoryData) (projectKey : string)
    (groupSpec : option GroupSpec) (cancel : Cancellation) (s : T)
  : (ExportError + ExportResult) * list Call * T :=
  if (projectKey =? "") then
    (inl (mkError Validation "project key is required"), [], s)
  else if (List.length stories =? 0)%nat then
    (inl (mkError Validation "no stories to export"), [], s)
  else
    match groupSpec with
    | Some spec =>
        if create spec then
          let description := group_description stories in
          let '(answer, s1) := CreateGroup client (name spec) description s in
          let call := CreateGroupCall (name spec) description in
          match answer with
          | inl _ => (inr (mkResult None [] 0 0 GroupFailed), [call], s1)
          | inr ref =>
              let '(outcomes, calls, s2) :=
                export_each client stories 0 cancel s1 in
              (inr (aggregate (Some ref) outcomes), call :: calls, s2)
          end
        else
          let '(outcomes, calls, s1) := export_each client stories 0 cancel s in
          (inr (aggregate None outcomes), calls, s1)
    | None =>
        let '(outcomes, calls, s1) := export_each client stories 0 cancel s in
        (inr (aggregate None outcomes), calls, s1)
    end.





(** A tracker for the examples: its state counts the calls made so far,
    keys are numbered by it, and the calls whose number is listed in
    [failing] are refused with the given kind. *)
Definition scripted (failing : list nat) (k : ErrorKind) : TicketClient nat :=
  let answer (n : nat) : (ExportError + IssueRef) * nat :=
    (if existsb (Nat.eqb n) failing
     then inl (mkError k "refused")
     else inr (mkIssueRef ("PROJ-" ++ Text.of_Z (Z.of_nat n)) None),
     S n) in
  mkClient nat (fun _ _ n => answer n) (fun _ _ _ _ _ n => answer n).

Definition three_stories : list StoryData :=
  [ mkStoryData (Some "As a user, I want to log in") (Some ["a"; "b"; "c"]);
    mkStoryData (Some "As an admin, I want reports") (Some []);
    mkStoryData (Some "As a guest, I want to browse") None ].


End Orchestrator.

(* ===================================================================== *)
(** ** Sample inputs *)
(* ===================================================================== *)

Module Samples.
Import Js.

Definition short_story : StoryData :=
  mkStoryData (Some "As a user, I want to log in") (Some ["one"]).

Definition detailed_story : StoryData :=
  mkStoryData (Some "As a user, I want to log in and see my dashboard")
              (Some ["one"; "two"; "three"; "four"; "five"]).

(** Two stories in the legacy format and in the object format. *)
Definition legacy_list : list JsValue :=
  [JsString "As a user, I want to log in"; JsString "As an admin, I want reports"].

Definition object_list : list JsValue :=
  [JsObject [("story", JsString "As a user, I want to log in");
             ("acceptance_criteria", JsArray [JsString "one"])]].

(** A server that accepts every export. *)
Definition accepting : Api.Transport :=
  fun _ _ =>
    inr (Api.mkResponse 200
           (JsObject [("export_result",
                       JsObject [("total_exported", JsNumber 2)])])).

(** The component right after the projects were loaded, and before. *)
Definition ready : JiraExport.State :=
  JiraExport.mkState "PROJ" "User Stories" true false "" "".

Definition no_project : JiraExport.State :=
  JiraExport.mkState "" "User Stories" true false "" "".

(** Two answers of the server with the same [detail]: credentials rejected,
    and an unknown issue key. *)
Definition credentials_rejected : Api.AxiosError :=
  Api.mkAxiosError
    (Some (Api.mkResponse 401 (JsObject [("detail", JsString "denied")])))
    true (Some "Request failed with status code 401").

Definition issue_missing : Api.AxiosError :=
  Api.mkAxiosError
    (Some (Api.mkResponse 404 (JsObject [("detail", JsString "denied")])))
    true (Some "Request failed with status code 404").

End Samples.

(* ===================================================================== *)
(** ** JavaScript string operations used by the components *)
(* ===================================================================== *)

(** Strings are sequences of [ascii] code units, with the letters, the white
    space and the line ends of that alphabet: [A]-[Z] and [a]-[z] are the
    cased letters, tab, line feed, vertical tab, form feed, carriage return
    and space are the white space, line feed and carriage return end a
    line. *)
Module JsText.

Definition is_lower (c : ascii) : bool :=
  let n := nat_of_ascii c in (97 <=? n)%nat && (n <=? 122)%nat.

Definition upper_char (c : ascii) : ascii :=
  if is_lower c then ascii_of_nat (nat_of_ascii c - 32) else c.

(** [s.toUpperCase()] on a text of ASCII characters: [a]-[z] become
    [A]-[Z] and every other character is kept. *)
Fixpoint toUpperCase (s : string) : string :=
  match s with
  | EmptyString => EmptyString
  | String c t => String (upper_char c) (toUpperCase t)
  end.

(** The text with [f] applied to each character. *)
Fixpoint map_chars (f : ascii -> ascii) (s : string) : string :=
  match s with
  | EmptyString => EmptyString
  | String c t => String (f c) (map_chars f t)
  end.

(** Every character of the text is an ASCII character, below 128. *)
Fixpoint ascii_only (s : string) : bool :=
  match s with
  | EmptyString => true
  | String c t => (nat_of_ascii c <? 128)%nat && ascii_only t
  end.

(** [s.toLowerCase()] *)
Definition toLowerCase (s : string) : string := Text.lower s.

Definition is_space (c : ascii) : bool :=
  let n := nat_of_ascii c in
  ((9 <=? n)%nat && (n <=? 13)%nat) || (n =? 32)%nat.

Definition is_line_end (c : ascii) : bool :=
  let n := nat_of_ascii c in (n =? 10)%nat || (n =? 13)%nat.

Fixpoint trimStart (s : string) : string :=
  match s with
  | EmptyString => EmptyString
  | String c t => if is_space c then trimStart t else s
  end.

(** The text without its trailing white space. *)
Fixpoint trimEnd (s : string) : string :=
  match s with
  | EmptyString => EmptyString
  | String c t =>
      match trimEnd t with
      | EmptyString => if is_space c then EmptyString else String c EmptyString
      | rest => String c rest
      end
  end.

(** [s.trim()] *)
Definition trim (s : string) : string := trimEnd (trimStart s).

(** An index argument brought into [0, len]. *)
Definition clamp (n len : Z) : nat := Z.to_nat (Z.min (Z.max n 0) len).

(** [s.substring(indexStart, indexEnd)]: both indices are clamped to the
    string and swapped when out of order. *)
Definition substring (s : string) (indexStart indexEnd : Z) : string :=
  let len := Z.of_nat (String.length s) in
  let a := clamp indexStart len in
  let b := clamp indexEnd len in
  String.substring (Nat.min a b) (Nat.max a b - Nat.min a b) s.

(** [s.split(sep)] for a separator of one character: the runs between the
    separators, the empty ones included; never an empty array. *)
Fixpoint split (sep : ascii) (s : string) : list string :=
  match s with
  | EmptyString => [EmptyString]
  | String c t =>
      if Ascii.eqb c sep then EmptyString :: split sep t
      else
        match split sep t with
        | [] => [String c EmptyString]
        | w :: ws => String c w :: ws
        end
  end.

(** [parts.slice(0, n)] *)
Definition slice0 (n : nat) (parts : list string) : list string :=
  firstn n parts.

(** [parts.pop()] on the array [split] returns, which is never empty. *)
Definition pop (parts : list string) : string := last parts EmptyString.

(** [s.includes(key)] *)
Definition includes (s key : string) : bool := Text.str_in key s.

End JsText.

(* ===================================================================== *)
(** ** HistoryPanel.js: [truncateText] *)
(* ===================================================================== *)

Module HistoryText.

(** [truncateText = (text, maxLength = 100) => ...] *)
Definition truncateText (text : string) (maxLength : option Z) : string :=
  let maxLength := Api.default_param maxLength 100%Z in
  if (Z.of_nat (String.length text) <=? maxLength)%Z then text
  else JsText.substring text 0 maxLength ++ "...".

End HistoryText.

(* ===================================================================== *)
(** ** UserStoryList.js: the one-line preview of a story *)
(* ===================================================================== *)

Module StoryPreview.

(** [item.story.split(' ').slice(0, 12).join(' ')], the words shown in the
    collapsed card before the dots. *)
Definition preview (story : string) : string :=
  Js.join " " (JsText.slice0 12 (JsText.split " " story)).

End StoryPreview.

(* ===================================================================== *)
(** ** UserStoryForm.js: the extension test of [handleFileUpload] *)
(* ===================================================================== *)

Module Upload.

(** [file.name.split('.').pop().toLowerCase()] *)
Definition fileExtension (name : string) : string :=
  JsText.toLowerCase (JsText.pop (JsText.split "." name)).

(** [fileExtension === 'pdf'] *)
Definition isPdf (name : string) : bool := fileExtension name =? "pdf".

End Upload.

(* ===================================================================== *)
(** ** UserStoryList.js: [getRoleInfo] *)
(* ===================================================================== *)

Module RoleBadge.
Import JsText.

Inductive Icon := User | Shield | Users | Settings.

Record RoleInfo := mkRoleInfo {
  role : string;
  color : string;
  icon : Icon
}.

(** [roleMap], in the order [Object.entries] lists it. *)
Definition roleMap : list (string * (string * Icon)) :=
  [ ("user", ("blue", User));
    ("admin", ("green", Shield));
    ("administrator", ("green", Shield));
    ("manager", ("purple", Users));
    ("developer", ("orange", Settings));
    ("customer", ("teal", User));
    ("client", ("teal", User));
    ("guest", ("gray", User));
    ("visitor", ("gray", User)) ].

(** The text starts with the pattern, letter case ignored as the [i] flag
    does it: two characters agree when their upper-case forms do. *)
Fixpoint starts_with_ci (pattern s : string) : bool :=
  match pattern with
  | EmptyString => true
  | String p pattern' =>
      match s with
      | EmptyString => false
      | String c t =>
          Ascii.eqb (upper_char c) (upper_char p) && starts_with_ci pattern' t
      end
  end.

(** [(.*?),] from the start of the text: the shortest run up to a comma,
    which a line end may not be part of. *)
Fixpoint until_comma (s : string) : option string :=
  match s with
  | EmptyString => None
  | String c t =>
      if Ascii.eqb c ","%char then Some EmptyString
      else if is_line_end c then None
      else option_map (String c) (until_comma t)
  end.

Fixpoint drop (n : nat) (s : string) : string :=
  match n, s with
  | S n', String _ t => drop n' t
  | _, _ => s
  end.

(** [story.match(/As a (.*?),/i)]: the first group of the leftmost match,
    [None] when the pattern matches nowhere. *)
Fixpoint match_role (story : string) : option string :=
  match (if starts_with_ci "As a " story
         then until_comma (drop 5 story) else None) with
  | Some group => Some group
  | None =>
      match story with
      | EmptyString => None
      | String _ t => match_role t
      end
  end.

(** The loop over [Object.entries(roleMap)] with its early return. *)
Fixpoint first_key (entries : list (string * (string * Icon))) (role : string)
  : option RoleInfo :=
  match entries with
  | [] => None
  | (key, (color, icon)) :: rest =>
      if includes role key then Some (mkRoleInfo key color icon)
      else first_key rest role
  end.

Definition getRoleInfo (story : string) : RoleInfo :=
  match match_role story with
  | None => mkRoleInfo "user" "blue" User
  | Some group =>
      let role := trim (toLowerCase group) in
      match first_key roleMap role with
      | Some info => info
      | None => mkRoleInfo role "blue" User
      end
  end.


End RoleBadge.

(* ===================================================================== *)
(** ** UserStoryList.js: the set of expanded stories *)
(* ===================================================================== *)

Module Expansion.

(** A JS [Set] of indices: its elements in insertion order, each once. *)
Definition IndexSet := list nat.

Definition has (s : IndexSet) (i : nat) : bool := existsb (Nat.eqb i) s.

Definition add (s : IndexSet) (i : nat) : IndexSet :=
  if has s i then s else (s ++ [i])%list.

Definition delete (s : IndexSet) (i : nat) : IndexSet :=
  filter (fun j => negb (Nat.eqb j i)) s.

(** [new Set(iterable)] *)
Definition from (items : list nat) : IndexSet := fold_left add items [].

Definition size (s : IndexSet) : nat := List.length s.

(** [toggleStoryExpansion(index)]: the next value of [expandedStories]. *)
Definition toggleStoryExpansion (expandedStories : IndexSet) (index : nat)
  : IndexSet :=
  let newExpanded := from expandedStories in
  if has newExpanded index then delete newExpanded index
  else add newExpanded index.

(** [expandAllStories()], for [stories.length] stories. *)
Definition expandAllStories (stories_length : nat) : IndexSet :=
  from (seq 0 stories_length).

(** [collapseAllStories()] *)
Definition collapseAllStories : IndexSet := from [].

(** What the user can do to the cards. *)
Inductive Click :=
| Toggle (index : nat)
| ExpandAll
| CollapseAll.

Definition click (stories_length : nat) (expandedStories : IndexSet) (c : Click)
  : IndexSet :=
  match c with
  | Toggle index => toggleStoryExpansion expandedStories index
  | ExpandAll => expandAllStories stories_length
  | CollapseAll => collapseAllStories
  end.

(** The component starts with [new Set()] and takes the clicks in order. *)
Definition after_clicks (stories_length : nat) (clicks : list Click) : IndexSet :=
  fold_left (click stories_length) clicks (from []).

(** A toggle comes from a rendered card, so its index is one of a story. *)
Definition on_a_card (stories_length : nat) (c : Click) : bool :=
  match c with
  | Toggle index => (index <? stories_length)%nat
  | _ => true
  end.

End Expansion.

(* ===================================================================== *)
(** ** api.js [downloadUserStories] and UserStoryList.js [downloadInFormat] *)
(* ===================================================================== *)

Module Download.
Import Js.

(** A story as the component holds it after normalisation: the narrative
    and the list of criteria, which may be missing. *)
Record Item := mkItem {
  story : string;
  acceptance_criteria : option (list string)
}.

(** What the network does with a JSON body posted to a URL. *)
Definition Transport := string -> JsValue -> Api.AxiosError + Api.AxiosResponse.

(** A file offered to the user through the temporary link. *)
Record SavedFile := mkSaved {
  download : string;
  mime : string;
  content : string
}.

Inductive Event :=
| Posted (url : string) (body : JsValue)
| Saved (file : SavedFile)
| ToastSuccess (text : string)
| ToastError (text : string).

(** [error.response?.data?.detail] on a thrown value: an [Error] made by
    [new Error] and an error raised by the engine carry no [response]. *)
Definition response_detail_of (e : Thrown) : JsValue :=
  match e with
  | ErrorObj _ => JsUndefined
  | TypeErrorObj _ => JsUndefined
  end.

Definition printable (c : ascii) : bool :=
  let n := nat_of_ascii c in (32 <=? n)%nat && (n <=? 126)%nat.

Fixpoint all_printable (s : string) : bool :=
  match s with
  | EmptyString => true
  | String c t => printable c && all_printable t
  end.

(** The [type] of a [Blob] made with [{ type: v }]: empty when [v] is
    missing or its string form has a character outside the printable range,
    and that string in lower case otherwise. *)
Definition blob_type (v : JsValue) : string :=
  match v with
  | JsUndefined => ""
  | _ => if all_printable (to_string v) then Text.lower (to_string v) else ""
  end.

(** The part of [downloadUserStories] after the answer has arrived: the
    fields of the body are read, the content is decoded when it is a
    base64 PDF, and the file is handed to the browser.  [atob] is the
    browser's base64 decoder, which refuses a malformed text. *)
Definition deliver (atob : string -> option string)
    (data : JsValue) (format : string) : Thrown + SavedFile :=
  try! content <- get_prop data "content";
  try! filename <- get_prop data "filename";
  try! mime_type <- get_prop data "mime_type";
  try! encoding <- get_prop data "encoding";
  if (format =? "pdf") &&
     match encoding with JsString e => e =? "base64" | _ => false end
  then
    match atob (to_string content) with
    | Some binaryString =>
        inr (mkSaved (to_string filename) "application/pdf" binaryString)
    | None => inl (ErrorObj "The string to be decoded is not correctly encoded.")
    end
  else inr (mkSaved (to_string filename) (blob_type mime_type)
                    (to_string content)).

(** [downloadUserStories(userStories, format)] *)
Definition downloadUserStories (transport : Transport)
    (atob : string -> option string) (userStories : JsValue) (format : string)
  : (Thrown + unit) * list Event :=
  let body :=
    JsObject [("user_stories", userStories); ("format", JsString format)] in
  let posted := [Posted "/download-user-stories" body] in
  let attempt : Thrown + SavedFile :=
    match transport "/download-user-stories" body with
    | inl error => inl (Api.on_response_error error)
    | inr response => deliver atob (Api.data (Api.on_response response)) format
    end in
  match attempt with
  | inr file => (inr tt, (posted ++ [Saved file])%list)
  | inl error =>
      (inl (new_Error (or_else (response_detail_of error)
                               (JsString "Failed to download file"))),
       posted)
  end.

(** [{ story: item.story, acceptance_criteria: item.acceptance_criteria || [] }] *)
Definition storyObject (item : Item) : JsValue :=
  JsObject
    [("story", JsString (story item));
     ("acceptance_criteria",
      JsArray (map JsString
                 (match acceptance_criteria item with
                  | Some criteria => criteria
                  | None => []
                  end)))].

(** The two pieces of state the download menu uses. *)
Record State := mkState {
  showDownloadMenu : bool;
  isDownloading : bool
}.

(** [downloadInFormat(format)], from the click to the state after
    [finally]. *)
Definition downloadInFormat (transport : Transport)
    (atob : string -> option string) (stories : list Item) (format : string)
    (st : State) : State * list Event :=
  let storyObjects := JsArray (map storyObject stories) in
  let '(answer, events) :=
    downloadUserStories transport atob storyObjects format in
  let toast :=
    match answer with
    | inr _ =>
        ToastSuccess ("User stories downloaded as "
                      ++ JsText.toUpperCase format ++ "!")
    | inl error =>
        ToastError ("Failed to download as " ++ JsText.toUpperCase format
                    ++ ": " ++ thrown_message error)
    end in
  (mkState false false, (events ++ [toast])%list).

End Download.

(* ===================================================================== *)
(** ** JiraExport.js: [checkJiraHealth] and what the component shows *)
(* ===================================================================== *)

Module JiraHealth.
Import Js.

(** The state [checkJiraHealth] sets. *)
Record State := mkState {
  loading : bool;
  jiraHealth : JsValue;
  error : string
}.

(** [useState('unknown')], no error, not loading. *)
Definition initial : State := mkState false (JsString "unknown") "".

(** [v === 'text'] *)
Definition strict_eq_string (v : JsValue) (text : string) : bool :=
  match v with
  | JsString s => s =? text
  | _ => false
  end.

(** [jiraAPI.healthCheck()]: [api.get('/jira/health')] through the
    interceptors, then [response.data]. *)
Definition healthCheck (get : string -> Api.AxiosError + Api.AxiosResponse)
  : Thrown + JsValue :=
  match get "/jira/health" with
  | inl error => inl (Api.on_response_error error)
  | inr response => inr (Api.data (Api.on_response response))
  end.

(** [checkJiraHealth], from the call to the state after [finally]. *)
Definition checkJiraHealth (get : string -> Api.AxiosError + Api.AxiosResponse)
    (st : State) : State :=
  let attempt : Thrown + State :=
    try! health <- healthCheck get;
    try! status <- get_prop health "status";
    if strict_eq_string status "healthy"
    then inr (mkState true status "")
    else inr (mkState true status "Jira service is not available") in
  match attempt with
  | inr st' => mkState false (jiraHealth st') (error st')
  | inl _ => mkState false (JsString "unhealthy")
                     "Failed to connect to Jira service"
  end.

(** What the component renders from this state: the red panel with the
    error and the retry button, or the export panel with its status label,
    the spinner, the form when it is shown, and the error line inside the
    form when there is an error. *)
Inductive Rendered :=
| Unavailable (message : string)
| ExportPanel (label : string) (spinner form : bool) (error_line : option string).

Definition render (st : State) : Rendered :=
  if strict_eq_string (jiraHealth st) "unhealthy" then Unavailable (error st)
  else
    let label :=
      if strict_eq_string (jiraHealth st) "healthy" then "Connected"
      else if strict_eq_string (jiraHealth st) "unhealthy" then "Disconnected"
      else "Checking..." in
    let form := negb (loading st) && strict_eq_string (jiraHealth st) "healthy" in
    ExportPanel label (loading st) form
      (if form && truthy (JsString (error st)) then Some (error st) else None).

End JiraHealth.

(* ===================================================================== *)
(** ** HistoryPanel.js: [loadStories] *)
(* ===================================================================== *)

Module History.
Import Js.

(** One page of the history as the server sends it: the entries and the
    number of entries stored. *)
Record Page := mkPage {
  user_stories : list JsValue;
  total : Z
}.

(** What the network does with [GET /user-stories?skip=..&limit=..]. *)
Definition Transport := Z -> Z -> Api.AxiosError + Page.

Record State := mkState {
  stories : list JsValue;
  loading : bool;
  page : Z;
  hasMore : bool
}.

Inductive Event :=
| Get (skip limit : Z)
| ToastError (text : string).

(** [userStoryAPI.getUserStories(skip = 0, limit = 10)] *)
Definition getUserStories (transport : Transport) (skip limit : option Z)
  : (Thrown + Page) * list Event :=
  let skip := Api.default_param skip 0%Z in
  let limit := Api.default_param limit 10%Z in
  (match transport skip limit with
   | inl error => inl (Api.on_response_error error)
   | inr p => inr p
   end,
   [Get skip limit]).

(** [loadStories(pageNum = 0)], from the call to the state after
    [finally]. *)
Definition loadStories (transport : Transport) (pageNum : option Z) (st : State)
  : State * list Event :=
  let pageNum := Api.default_param pageNum 0%Z in
  if loading st then (st, [])
  else
    let '(answer, events) :=
      getUserStories transport (Some (pageNum * 10)%Z) (Some 10%Z) in
    match answer with
    | inr response =>
        let newStories :=
          if (pageNum =? 0)%Z then user_stories response
          else (stories st ++ user_stories response)%list in
        (mkState newStories false pageNum
           (total response >? Z.of_nat (List.length newStories))%Z,
         events)
    | inl _ =>
        (mkState (stories st) false (page st) (hasMore st),
         (events ++ [ToastError "Failed to load history"])%list)
    end.

End History.

(* ===================================================================== *)
(** ** The example configuration of the customisation guide *)
(* ===================================================================== *)

Module ExampleConfiguration.

Definition _determine_priority (story_data : StoryData) : string :=
  let story_text := Text.lower (get_default (story story_data) "") in
  if Text.str_in "security" story_text || Text.str_in "login" story_text
  then "Highest"
  else if Text.str_in "critical" story_text
  then "High"
  else "Medium".

Definition _determine_component (story_data : StoryData) : string :=
  let story_text := Text.lower (get_default (story story_data) "") in
  if Text.str_in "ui" story_text || Text.str_in "interface" story_text
  then "User Interface"
  else if Text.str_in "api" story_text
  then "API"
  else "General".

End ExampleConfiguration.

(* ===================================================================== *)
(** ** More sample inputs *)
(* ===================================================================== *)

Module MoreSamples.
Import Js.

(** A server that refuses every export with rejected credentials. *)
Definition refusing : Api.Transport :=
  fun _ _ => inl Samples.credentials_rejected.

(** Clicks on a list of three stories. *)
Definition some_clicks : list Expansion.Click :=
  [Expansion.Toggle 0; Expansion.Toggle 2; Expansion.ExpandAll;
   Expansion.Toggle 1; Expansion.CollapseAll; Expansion.Toggle 2].

End MoreSamples.

(* ===================================================================== *)
(** * Properties *)
(* ===================================================================== *)

(** ** Estimator *)

Section EstimatorFacts.
Open Scope Z_scope.

Ltac split_tests :=
  repeat match goal with
         | |- context [ (?a <=? ?b) ] => destruct (Z.leb_spec a b)
         | |- context [ (?a >? ?b) ] =>
             rewrite (Z.gtb_ltb a b); destruct (Z.ltb_spec b a)
         end.

Lemma estimate_unfold (story_data : StoryData) :
  _estimate_story_points story_data =
  Z.min
    ((if criteria_count story_data <=? 2 then 3
      else if criteria_count story_data <=? 4 then 5
      else if criteria_count story_data <=? 6 then 7 else 9)
     + (if story_length story_data >? 200 then 1 else 0)
     + (if story_length story_data >? 400 then 1 else 0))
    13.
Proof.
  unfold _estimate_story_points, criteria_count, story_length.
  cbv zeta.
  repeat match goal with
         | |- context [ if ?b then _ else _ ] => destruct b
         end; reflexivity.
Qed.

Lemma criteria_count_nonneg (story_data : StoryData) :
  0 <= criteria_count story_data.
Proof. unfold criteria_count. lia. Qed.

Lemma story_length_nonneg (story_data : StoryData) :
  0 <= story_length story_data.
Proof. unfold story_length, Text.len. lia. Qed.

(** C1.  For a story with [c] acceptance criteria and a narrative of [l]
    characters the estimate is [min 13 (3 + bucket + bonus)], where the
    bucket is 0 for [c <= 2], 2 for [3 <= c <= 4], 4 for [5 <= c <= 6] and 6
    for [c >= 7], and the bonus is 0 for [l <= 200], 1 for
    [200 < l <= 400] and 2 for [l > 400]. *)
Theorem estimate_is_base_bucket_bonus (story_data : StoryData) :
  let c := criteria_count story_data in
  let l := story_length story_data in
  exists bucket bonus,
    _estimate_story_points story_data = Z.min 13 (3 + bucket + bonus)
    /\ ((c <= 2 /\ bucket = 0) \/ (3 <= c <= 4 /\ bucket = 2)
        \/ (5 <= c <= 6 /\ bucket = 4) \/ (7 <= c /\ bucket = 6))
    /\ ((l <= 200 /\ bonus = 0) \/ (200 < l <= 400 /\ bonus = 1)
        \/ (400 < l /\ bonus = 2)).
Proof.
  intros c l. rewrite estimate_unfold. fold c l.
  split_tests; try lia.
  all: match goal with
       | |- exists b n, Z.min (?p + ?x + ?y) 13 = _ /\ _ =>
           exists (p - 3), (x + y)
       end.
  all: repeat split; lia.
Qed.

(** C5.  The estimate lies in [3, 13], and a story with at least as many
    criteria and at least as long a narrative as another is estimated at
    least as high; fixing one of the two measures gives monotonicity in the
    other. *)
Theorem estimate_range_and_monotone (a b : StoryData)
    (Hc : criteria_count a <= criteria_count b)
    (Hl : story_length a <= story_length b) :
  3 <= _estimate_story_points a <= 13
  /\ _estimate_story_points a <= _estimate_story_points b.
Proof.
  rewrite !estimate_unfold.
  split_tests; lia.
Qed.

End EstimatorFacts.

(** ** Text *)

Section TextFacts.
Import Text.

Lemma lower_char_idem (c : ascii) : lower_char (lower_char c) = lower_char c.
Proof. destruct c as [[] [] [] [] [] [] [] []]; reflexivity. Qed.

Lemma lower_idem (s : string) : lower (lower s) = lower s.
Proof.
  induction s as [|c s IH]; simpl; [reflexivity|].
  now rewrite lower_char_idem, IH.
Qed.

Lemma lower_app (a b : string) : lower (a ++ b) = lower a ++ lower b.
Proof. induction a as [|c a IH]; simpl; [reflexivity | now rewrite IH]. Qed.

(** A split of the lower-case form comes from a split of the text. *)
Lemma lower_split (t a b : string) :
  lower t = a ++ b ->
  exists x y, t = x ++ y /\ lower x = a /\ lower y = b.
Proof.
  revert t. induction a as [|c a IH]; intros t H.
  - exists "", t. auto.
  - destruct t as [|d t]; simpl in H; [discriminate|].
    injection H as Hc Ht.
    destruct (IH t Ht) as (x & y & -> & Hx & Hy).
    exists (String d x), y. simpl. now rewrite Hc, Hx.
Qed.

Lemma prefix_spec (w t : string) :
  prefix w t = true <-> exists rest, t = w ++ rest.
Proof.
  revert t. induction w as [|c w IH]; intros [|d t]; simpl.
  - split; [intros _; now exists "" | reflexivity].
  - split; [intros _; now exists (String d t) | reflexivity].
  - split; [discriminate | intros [r Hr]; discriminate].
  - destruct (ascii_dec c d) as [->|Hne].
    + rewrite IH. split; intros [r Hr]; exists r.
      * now rewrite Hr.
      * now injection Hr.
    + split; [discriminate | intros [r Hr]; injection Hr; congruence].
Qed.

Lemma str_in_nil (w : string) : str_in w "" = prefix w "".
Proof. unfold str_in. apply orb_false_r. Qed.

Lemma str_in_cons (w : string) (d : ascii) (t : string) :
  str_in w (String d t) = prefix w (String d t) || str_in w t.
Proof. reflexivity. Qed.

Lemma str_in_spec (w t : string) :
  str_in w t = true <-> exists before after, t = before ++ w ++ after.
Proof.
  induction t as [|d t IH].
  - rewrite str_in_nil, prefix_spec. split.
    + intros [r Hr]. now exists "", r.
    + intros (b & a & H). destruct b; [now exists a | discriminate].
  - rewrite str_in_cons, orb_true_iff, IH, prefix_spec. split.
    + intros [[r Hr] | (b & a & H)].
      * now exists "", r.
      * exists (String d b), a. simpl. now rewrite H.
    + intros (b & a & H). destruct b as [|e b]; simpl in H.
      * left. now exists a.
      * right. injection H as _ H. now exists b, a.
Qed.

Lemma any_word_in_spec (words : list string) (t : string) :
  any_word_in words t = true <-> exists w, In w words /\ str_in w t = true.
Proof. unfold any_word_in. apply existsb_exists. Qed.

(** For a lower-case term, the substring test on the lower-cased text is
    occurrence up to letter case. *)
Lemma str_in_lower_spec (term text : string) :
  lower term = term ->
  (str_in term (lower text) = true <-> occurs_ignoring_case term text).
Proof.
  intros Hterm. rewrite str_in_spec. unfold occurs_ignoring_case. split.
  - intros (b & a & H).
    destruct (lower_split _ _ _ H) as (x & y & -> & _ & Hy).
    destruct (lower_split _ _ _ Hy) as (m & z & -> & Hm & _).
    exists x, m, z. split; [reflexivity | congruence].
  - intros (b & m & a & -> & Hm).
    exists (lower b), (lower a). rewrite !lower_app. congruence.
Qed.

End TextFacts.

(** ** Classifier *)

Lemma determine_priority_with_spec
    (vocabulary : list string) (story_data : StoryData) :
  Forall lowercase vocabulary ->
  (determine_priority_with vocabulary story_data = "High" <->
   exists term, In term vocabulary
                /\ occurs_ignoring_case term (get_default (story story_data) ""))
  /\ (determine_priority_with vocabulary story_data = "Medium" <->
      ~ exists term, In term vocabulary
                /\ occurs_ignoring_case term (get_default (story story_data) "")).
Proof.
  intros Hlow. unfold determine_priority_with. cbv zeta.
  set (text := get_default (story story_data) "").
  assert (Hiff : Text.any_word_in vocabulary (Text.lower text) = true <->
                 exists term, In term vocabulary /\ occurs_ignoring_case term text).
  { rewrite any_word_in_spec. rewrite Forall_forall in Hlow.
    split; intros (w & Hin & Hw); exists w; split; auto;
      apply (str_in_lower_spec w text (Hlow w Hin)); exact Hw. }
  destruct (Text.any_word_in vocabulary (Text.lower text)).
  - assert (Hex : exists term, In term vocabulary
                               /\ occurs_ignoring_case term text)
      by (apply Hiff; reflexivity).
    split; split; intros H; try discriminate; auto. contradiction.
  - assert (Hno : ~ exists term, In term vocabulary
                                 /\ occurs_ignoring_case term text)
      by (intros Hex; apply Hiff in Hex; discriminate).
    split; split; intros H; try discriminate; auto. contradiction.
Qed.

Lemma urgent_words_lowercase : Forall lowercase urgent_words.
Proof. repeat constructor. Qed.

(** C6.  [_determine_priority] answers High exactly when the narrative
    contains, up to letter case, one of the urgent terms, and Medium
    otherwise; High ranks above Medium; with an empty vocabulary the answer
    is Medium for every story; the function is total. *)
Theorem priority_medium_unless_urgent_term (story_data : StoryData) :
  let narrative := get_default (story story_data) "" in
  let urgent :=
    exists term, In term urgent_words /\ occurs_ignoring_case term narrative in
  _determine_priority story_data = determine_priority_with urgent_words story_data
  /\ (_determine_priority story_data = priority_name High <-> urgent)
  /\ (_determine_priority story_data = priority_name Medium <-> ~ urgent)
  /\ priority_rank Medium < priority_rank High
  /\ determine_priority_with [] story_data = priority_name Medium.
Proof.
  intros narrative urgent.
  assert (Hsame : _determine_priority story_data
                  = determine_priority_with urgent_words story_data)
    by reflexivity.
  destruct (determine_priority_with_spec urgent_words story_data
              urgent_words_lowercase) as [Hhigh Hmedium].
  rewrite Hsame. repeat split; try apply Hhigh; try apply Hmedium; auto.
Qed.

Lemma first_match_none (table : list (string * string)) (default text : string) :
  (forall keyword label,
      In (keyword, label) table -> Text.str_in keyword text = false) ->
  first_match table default text = default.
Proof.
  induction table as [|[k l] rest IH]; intros Hnone; simpl; [reflexivity|].
  rewrite (Hnone k l) by (left; reflexivity).
  apply IH. intros k' l' Hin. apply (Hnone k' l'). now right.
Qed.

Lemma first_match_first
    (earlier later : list (string * string)) (keyword label default text : string) :
  (forall k l, In (k, l) earlier -> Text.str_in k text = false) ->
  Text.str_in keyword text = true ->
  first_match (earlier ++ (keyword, label) :: later)%list default text = label.
Proof.
  induction earlier as [|[k l] rest IH]; intros Hnone Hhit; simpl.
  - now rewrite Hhit.
  - rewrite (Hnone k l) by (left; reflexivity).
    apply IH; [|exact Hhit]. intros k' l' Hin. apply (Hnone k' l'). now right.
Qed.

(** The chain of tests in the source is the first-match rule over its
    table. *)
Lemma determine_component_first_match (story_data : StoryData) :
  _determine_component story_data
  = classify_component_spec component_table story_data.
Proof.
  unfold _determine_component, classify_component_spec, component_table,
    Text.any_word_in.
  cbv zeta. generalize (Text.lower (get_default (story story_data) "")).
  intros text. cbn [existsb first_match].
  repeat match goal with
         | |- context [ Text.str_in ?k text ] =>
             destruct (Text.str_in k text); cbn [orb]; try reflexivity
         end.
Qed.

(** C7.  [_determine_component] answers with the label of the first row of
    its keyword table, in table order, whose keyword occurs in the
    lower-cased narrative, and with "General" when no row matches; a
    matching row with no matching row before it decides the answer, whatever
    matches after it. *)
Theorem component_is_first_matching_row (story_data : StoryData) :
  let text := Text.lower (get_default (story story_data) "") in
  _determine_component story_data
  = first_match component_table "General" text
  /\ ((forall keyword label,
          In (keyword, label) component_table ->
          Text.str_in keyword text = false) ->
      _determine_component story_data = "General")
  /\ (forall earlier keyword label later,
         component_table = (earlier ++ (keyword, label) :: later)%list ->
         (forall k l, In (k, l) earlier -> Text.str_in k text = false) ->
         Text.str_in keyword text = true ->
         _determine_component story_data = label).
Proof.
  intros text.
  pose proof (determine_component_first_match story_data) as Hsame.
  unfold classify_component_spec in Hsame. fold text in Hsame.
  rewrite Hsame. split; [reflexivity|]. split.
  - apply first_match_none.
  - intros earlier keyword label later -> Hnone Hhit.
    now apply first_match_first.
Qed.

(** ** UserStoryList: legacy format *)

Section UserStoryListFacts.
Import Js UserStoryList.

Lemma wrap_legacy_has_criteria (v : JsValue) : has_criteria_array (wrap_legacy v).
Proof.
  exists [("story", v); ("acceptance_criteria", JsArray [])], [].
  split; reflexivity.
Qed.

Lemma isNewFormat_first (v : JsValue) (rest : list JsValue) :
  isNewFormat (Some (v :: rest)) = (typeof v =? "object").
Proof.
  unfold isNewFormat. cbn [nth].
  replace (0 <? Z.of_nat (List.length (v :: rest)))%Z with true; [reflexivity|].
  symmetry. apply Z.ltb_lt. simpl List.length. lia.
Qed.

(** C10.  A non-empty list of plain strings is turned, element by element,
    into records [{ story: <the string>, acceptance_criteria: [] }], so each
    record handed on to the export carries an [acceptance_criteria] array; a
    non-empty list of objects is handed on as it is. *)
Theorem legacy_strings_wrapped_objects_unchanged
    (items : list JsValue) (Hnonempty : items <> []) :
  (Forall is_string items ->
   exists records,
     stories (Some items) = inr (JsArray records)
     /\ records
        = map (fun s => JsObject [("story", s); ("acceptance_criteria", JsArray [])])
              items
     /\ Forall has_criteria_array records)
  /\ (Forall is_object items -> stories (Some items) = inr (JsArray items)).
Proof.
  destruct items as [|v rest]; [contradiction|].
  unfold stories. rewrite isNewFormat_first. split.
  - intros Hall. inversion Hall as [|? ? [s ->] _]; subst.
    cbn [typeof]. exists (map wrap_legacy (JsString s :: rest)).
    split; [reflexivity|]. split; [reflexivity|].
    apply Forall_map. apply Forall_forall. intros x _.
    apply wrap_legacy_has_criteria.
  - intros Hall. inversion Hall as [|? ? Hv _]; subst.
    unfold is_object in Hv. now rewrite Hv.
Qed.

End UserStoryListFacts.

(** ** Orchestrator *)

Section OrchestratorFacts.
Import Orchestrator.
Context {T : Type} (client : TicketClient T) (cancel : Cancellation).








Lemma validated (stories : list StoryData) (projectKey : string) :
  projectKey <> "" -> stories <> [] ->
  (projectKey =? "") = false /\ (List.length stories =? 0)%nat = false.
Proof.
  intros Hkey Hstories. split.
  - now apply String.eqb_neq.
  - destruct stories; [contradiction | reflexivity].
Qed.


End OrchestratorFacts.


(** C3.  When a group is requested and its creation fails, Export returns
    at once with status GroupFailed, no outcomes and no group reference,
    and the trace holds the CreateGroup call alone: no CreateIssue call is
    made. *)
Theorem export_group_failure_short_circuits {T : Type}
    (client : Orchestrator.TicketClient T)
    (stories : list StoryData) (projectKey : string)
    (spec : Orchestrator.GroupSpec) (cancel : Orchestrator.Cancellation)
    (s s1 : T) (err : Orchestrator.ExportError)
    (Hkey : projectKey <> "") (Hstories : stories <> [])
    (Hcreate : Orchestrator.create spec = true)
    (Hfail : Orchestrator.CreateGroup client (Orchestrator.name spec)
               (Orchestrator.group_description stories) s = (inl err, s1)) :
  exists result calls,
    Orchestrator.Export client stories projectKey (Some spec) cancel s
    = (inr result, calls, s1)
    /\ Orchestrator.status result = Orchestrator.GroupFailed
    /\ Orchestrator.outcomes result = []
    /\ Orchestrator.group result = None
    /\ filter Orchestrator.is_create_issue calls = []
    /\ List.length calls = 1.
Proof.
  destruct (validated stories projectKey Hkey Hstories) as [Hk Hs].
  unfold Orchestrator.Export. rewrite Hk, Hs, Hcreate, Hfail.
  eexists _, _. split; [reflexivity|]. repeat split.
Qed.

(** ** Front end: validation, error translation, group defaults *)

Section FrontEndFacts.
Import Js.

(** C4.  When no project is selected or the story list is empty,
    [handleExport] stops at its guard: it sets the validation message, makes
    no call on the network and leaves the rest of the state as it was. *)
Theorem export_validation_fails_fast
    (transport : Api.Transport) (userStories : JsValue)
    (onExportComplete : bool) (st : JiraExport.State)
    (Hinvalid : JiraExport.selectedProject st = "" \/ userStories = JsArray []) :
  let run := JiraExport.handleExport transport userStories onExportComplete st in
  snd run = []
  /\ JiraExport.network_calls (snd run) = []
  /\ (JiraExport.selectedProject st = "" ->
      fst run = JiraExport.setError st "Please select a Jira project")
  /\ (JiraExport.selectedProject st <> "" ->
      fst run = JiraExport.setError st "No user stories to export")
  /\ JiraExport.error (fst run) <> "".
Proof.
  unfold JiraExport.handleExport. cbn [truthy].
  destruct (String.eqb_spec (JiraExport.selectedProject st) "") as [Hempty|Hsel];
    cbn [negb].
  - repeat split; auto; try contradiction. discriminate.
  - destruct Hinvalid as [Hempty| ->]; [contradiction|].
    cbn. repeat split; auto; try contradiction. discriminate.
Qed.

End FrontEndFacts.

Section InterceptorFacts.
Import Js Api.

Lemma throw_detail_or_spec (data detail : JsValue) (fallback : string) :
  get_prop data "detail" = inr detail ->
  throw_detail_or data fallback
  = ErrorObj (if truthy detail then to_string detail else fallback).
Proof.
  intros Hget. unfold throw_detail_or, new_Error, or_else. rewrite Hget.
  now destruct (truthy detail).
Qed.

Lemma get_prop_defined (data : JsValue) (name : string) :
  data <> JsNull -> data <> JsUndefined ->
  exists v, get_prop data name = inr v.
Proof.
  intros Hnull Hundef. destruct data; try contradiction; simpl; eauto.
Qed.

(** C9, amended.  The response interceptor turns a failure into a fresh
    [Error] that carries a message and nothing else.  For an answer of the
    server whose body is neither [null] nor [undefined] the message is the
    body's [detail] when that is truthy (a non-empty string [detail] is
    passed on letter for letter) and otherwise "Bad request" for 400,
    "Resource not found" for 404, "Internal server error" for 500 and
    "HTTP <status> error" for any other status; with no answer but a request
    sent it is the fixed connection message; otherwise it is the failure's
    own message, or "An unexpected error occurred" when that is empty or
    missing. *)
Theorem response_failure_becomes_message (error : AxiosError)
    (Hbody : forall r, response error = Some r ->
                       data r <> JsNull /\ data r <> JsUndefined) :
  (exists text, on_response_error error = ErrorObj text)
  /\ (forall r detail,
         response error = Some r ->
         get_prop (data r) "detail" = inr detail ->
         (truthy detail = true ->
          on_response_error error = ErrorObj (to_string detail))
         /\ (forall s, detail = JsString s -> s <> "" ->
             on_response_error error = ErrorObj s)
         /\ (truthy detail = false ->
             exists fallback,
               on_response_error error = ErrorObj fallback
               /\ ((status r = 400 /\ fallback = "Bad request")
                   \/ (status r = 404 /\ fallback = "Resource not found")
                   \/ (status r = 500 /\ fallback = "Internal server error")
                   \/ (status r <> 400 /\ status r <> 404 /\ status r <> 500
                       /\ fallback = "HTTP " ++ Text.of_Z (status r) ++ " error"))))%Z
  /\ (response error = None -> request error = true ->
      on_response_error error
      = ErrorObj "No response from server. Please check your connection.")
  /\ (response error = None -> request error = false ->
      on_response_error error
      = ErrorObj (match message error with
                  | Some (String c m) => String c m
                  | _ => "An unexpected error occurred"
                  end)).
Proof.
  assert (Hanswer : forall r detail,
    response error = Some r ->
    get_prop (data r) "detail" = inr detail ->
    exists fallback,
      on_response_error error
      = ErrorObj (if truthy detail then to_string detail else fallback)
      /\ ((status r = 400 /\ fallback = "Bad request")
          \/ (status r = 404 /\ fallback = "Resource not found")
          \/ (status r = 500 /\ fallback = "Internal server error")
          \/ (status r <> 400 /\ status r <> 404 /\ status r <> 500
              /\ fallback = "HTTP " ++ Text.of_Z (status r) ++ " error"))%Z).
  { intros r detail Hr Hget. unfold on_response_error. rewrite Hr. cbv zeta.
    destruct (Z.eqb_spec (status r) 400);
      [|destruct (Z.eqb_spec (status r) 404);
        [|destruct (Z.eqb_spec (status r) 500)]];
      eexists; (split; [apply throw_detail_or_spec; exact Hget|]); auto 10. }
  repeat apply conj.
  - destruct (response error) as [r|] eqn:Hr.
    + destruct (Hbody r eq_refl) as [Hnull Hundef].
      destruct (get_prop_defined (data r) "detail" Hnull Hundef) as [d Hd].
      destruct (Hanswer r d eq_refl Hd) as (fb & -> & _). eauto.
    + unfold on_response_error. rewrite Hr.
      destruct (request error); unfold new_Error; eauto.
  - intros r detail Hr Hget.
    destruct (Hanswer r detail Hr Hget) as (fb & Hthrown & Hfb).
    repeat apply conj.
    + intros Ht. now rewrite Hthrown, Ht.
    + intros s -> Hs. rewrite Hthrown. cbn.
      destruct (String.eqb_spec s ""); [contradiction | reflexivity].
    + intros Hf. exists fb. rewrite Hthrown, Hf. auto.
  - intros Hr Hreq. unfold on_response_error. now rewrite Hr, Hreq.
  - intros Hr Hreq. unfold on_response_error. rewrite Hr, Hreq.
    destruct (message error) as [[|c m]|]; reflexivity.
Qed.

End InterceptorFacts.


(** X18.  [exportStories] always posts group options, once, to
    /jira/export-stories: an omitted [createEpic] is sent as [true] and an
    omitted [epicName] as "User Stories", so a call that gives no group
    options asks for a group, and [create_epic] is false only when
    [createEpic] is passed as [false].  The caller gets the body of the
    answer, or what the response interceptor throws. *)
Theorem exportStories_sends_group_defaults
    (transport : Api.Transport) (stories : Js.JsValue) (projectKey : string)
    (createEpic : option bool) (epicName : option string) :
  let request :=
    Api.mkExportRequest stories projectKey
      (match createEpic with Some b => b | None => true end)
      (match epicName with Some n => n | None => "User Stories" end) in
  let run := Api.exportStories transport stories projectKey createEpic epicName in
  snd run = [Api.mkSent "/jira/export-stories" request]
  /\ fst run
     = match transport "/jira/export-stories" request with
       | inl error => inl (Api.on_response_error error)
       | inr response => inr (Api.data response)
       end
  /\ (Api.create_epic request = false <-> createEpic = Some false)
  /\ (epicName = None -> Api.epic_name request = "User Stories").
Proof.
  intros request run. subst run request.
  unfold Api.exportStories, Api.post, Api.default_param, Api.on_response.
  cbv zeta. cbn [fst snd Api.create_epic Api.epic_name].
  split; [reflexivity|]. split.
  - now destruct (transport _ _).
  - split.
    + destruct createEpic as [[|]|]; split; intros H; try discriminate;
        reflexivity.
    + now intros ->.
Qed.

(** C9, as stated, fails: rejected credentials (401) and a missing resource
    (404) that come with the same [detail] are turned into the same thrown
    value, so nothing computed from what the caller receives tells the
    kind Authentication from the kind NotFound. *)
Lemma interceptor_result_has_no_error_kind :
  Api.on_response_error Samples.credentials_rejected
  = Api.on_response_error Samples.issue_missing
  /\ ~ exists kind_of : Js.Thrown -> Orchestrator.ErrorKind,
         kind_of (Api.on_response_error Samples.credentials_rejected)
         = Orchestrator.Authentication
         /\ kind_of (Api.on_response_error Samples.issue_missing)
            = Orchestrator.NotFound.
Proof.
  assert (Hsame : Api.on_response_error Samples.credentials_rejected
                  = Api.on_response_error Samples.issue_missing)
    by reflexivity.
  split; [exact Hsame|].
  intros (kind_of & Hauth & Hmissing). rewrite Hsame in Hauth. congruence.
Qed.

(** ** The theorems at concrete inputs *)

(** A five-criteria story is estimated no lower than a one-criterion story
    with a shorter narrative, and both estimates are in range. *)
Lemma estimate_range_and_monotone_witness :
  (criteria_count Samples.short_story <= criteria_count Samples.detailed_story)%Z
  /\ (story_length Samples.short_story <= story_length Samples.detailed_story)%Z
  /\ (3 <= _estimate_story_points Samples.short_story <= 13)%Z
  /\ (_estimate_story_points Samples.short_story
      <= _estimate_story_points Samples.detailed_story)%Z.
Proof.
  assert (Hc : (criteria_count Samples.short_story
                <= criteria_count Samples.detailed_story)%Z)
    by (vm_compute; discriminate).
  assert (Hl : (story_length Samples.short_story
                <= story_length Samples.detailed_story)%Z)
    by (vm_compute; discriminate).
  split; [exact Hc|]. split; [exact Hl|].
  exact (estimate_range_and_monotone
           Samples.short_story Samples.detailed_story Hc Hl).
Defined.

(** Scenario A: an empty story list with project "PROJ". *)
Lemma export_validation_fails_fast_witness :
  (JiraExport.selectedProject Samples.ready = "" \/ Js.JsArray [] = Js.JsArray [])
  /\ snd (JiraExport.handleExport Samples.accepting (Js.JsArray []) true
            Samples.ready) = []
  /\ JiraExport.error
       (fst (JiraExport.handleExport Samples.accepting (Js.JsArray []) true
               Samples.ready)) <> "".
Proof.
  assert (H : JiraExport.selectedProject Samples.ready = ""
              \/ Js.JsArray [] = Js.JsArray [])
    by (right; reflexivity).
  split; [exact H|].
  pose proof (export_validation_fails_fast
                Samples.accepting (Js.JsArray []) true Samples.ready H) as W.
  cbv zeta in W. split; [apply W | apply W].
Defined.



(** Scenario B: three stories, the group creation is refused. *)
Lemma export_group_failure_short_circuits_witness :
  let client := Orchestrator.scripted [0] Orchestrator.Authentication in
  let spec := Orchestrator.mkGroupSpec "User Stories" true in
  exists result calls,
    Orchestrator.Export client Orchestrator.three_stories "PROJ" (Some spec)
      None 0
    = (inr result, calls, 1)
    /\ Orchestrator.status result = Orchestrator.GroupFailed
    /\ Orchestrator.outcomes result = []
    /\ Orchestrator.group result = None
    /\ filter Orchestrator.is_create_issue calls = []
    /\ List.length calls = 1.
Proof.
  intros client spec.
  apply (export_group_failure_short_circuits client Orchestrator.three_stories
           "PROJ" spec None 0 1
           (Orchestrator.mkError Orchestrator.Authentication "refused")).
  - discriminate.
  - discriminate.
  - reflexivity.
  - vm_compute. reflexivity.
Defined.

(** A 401 answer with a [detail]: the caller gets an [Error] whose message
    is that [detail]. *)
Lemma response_failure_becomes_message_witness :
  (forall r, Api.response Samples.credentials_rejected = Some r ->
             Api.data r <> Js.JsNull /\ Api.data r <> Js.JsUndefined)
  /\ exists text,
       Api.on_response_error Samples.credentials_rejected = Js.ErrorObj text.
Proof.
  assert (H : forall r, Api.response Samples.credentials_rejected = Some r ->
                        Api.data r <> Js.JsNull /\ Api.data r <> Js.JsUndefined).
  { intros r Hr. injection Hr as <-. split; discriminate. }
  split; [exact H|].
  exact (proj1 (response_failure_becomes_message Samples.credentials_rejected H)).
Defined.

(** Two legacy strings become two records with empty criteria. *)
Lemma legacy_strings_wrapped_objects_unchanged_witness :
  Samples.legacy_list <> []
  /\ (Forall UserStoryList.is_string Samples.legacy_list ->
      exists records,
        UserStoryList.stories (Some Samples.legacy_list)
        = inr (Js.JsArray records)
        /\ records
           = map (fun s => Js.JsObject [("story", s);
                                        ("acceptance_criteria", Js.JsArray [])])
                 Samples.legacy_list
        /\ Forall UserStoryList.has_criteria_array records).
Proof.
  assert (H : Samples.legacy_list <> []) by discriminate.
  split; [exact H|].
  exact (proj1 (legacy_strings_wrapped_objects_unchanged Samples.legacy_list H)).
Defined.

(** ** Worked scenarios *)

(** Scenario C in full: the second outcome is the failure, at index 1. *)
Example scenario_partial_failure :
  fst (fst (Orchestrator.Export
              (Orchestrator.scripted [2] Orchestrator.NetworkTimeout)
              Orchestrator.three_stories "PROJ"
              (Some (Orchestrator.mkGroupSpec "User Stories" true)) None 0))
  = inr (Orchestrator.mkResult
           (Some (Orchestrator.mkIssueRef "PROJ-0" None))
           [ Orchestrator.Succeeded 0 (Orchestrator.mkIssueRef "PROJ-1" None);
             Orchestrator.Failed 1
               (Orchestrator.mkError Orchestrator.NetworkTimeout "refused");
             Orchestrator.Succeeded 2 (Orchestrator.mkIssueRef "PROJ-3" None) ]
           2 1 Orchestrator.PartialFailure).
Proof. vm_compute. reflexivity. Qed.

(** Scenario D: 450 characters and eight criteria give 11 points. *)
Example scenario_long_story :
  _estimate_story_points
    (mkStoryData (Some (String.concat "" (repeat "abcdefghi " 45)))
                 (Some (repeat "criterion" 8)))
  = 11%Z.
Proof. vm_compute. reflexivity. Qed.

(** The length bonus at its thresholds: 200, 201, 400 and 401 characters. *)
Example scenario_length_thresholds :
  map (fun n => _estimate_story_points
                  (mkStoryData (Some (String.concat "" (repeat "x" n))) None))
      [200; 201; 400; 401]
  = [3; 4; 4; 5]%Z.
Proof. vm_compute. reflexivity. Qed.

(** A narrative naming both "login" and "api": the earlier row decides. *)
Example scenario_first_row_wins :
  _determine_component
    (mkStoryData (Some "As a developer I want a Login API") None)
  = "User Management"
  /\ _determine_priority
       (mkStoryData (Some "As a developer I want a Login API") None)
     = "High".
Proof. split; vm_compute; reflexivity. Qed.

(** A successful export from the ready component: one call, the success
    message, no error. *)
Example scenario_handle_export :
  JiraExport.handleExport Samples.accepting
    (Js.JsArray Samples.object_list) false Samples.ready
  = (JiraExport.mkState "PROJ" "User Stories" true false ""
       "Successfully exported 2 stories to Jira!",
     [JiraExport.Network
        (Api.mkSent "/jira/export-stories"
           (Api.mkExportRequest (Js.JsArray Samples.object_list) "PROJ" true
              "User Stories"))]).
Proof. vm_compute. reflexivity. Qed.

(* ===================================================================== *)
(** * Further properties of the front end *)
(* ===================================================================== *)

(** ** String operations *)

Section JsTextFacts.
Import JsText.

Lemma string_app_length (a b : string) :
  String.length (a ++ b) = String.length a + String.length b.
Proof. induction a as [|c a IH]; simpl; [reflexivity | now rewrite IH]. Qed.

Lemma string_app_nil_r (a : string) : a ++ "" = a.
Proof. induction a as [|c a IH]; simpl; [reflexivity | now rewrite IH]. Qed.

Lemma string_app_assoc (a b c : string) : (a ++ b) ++ c = a ++ (b ++ c).
Proof. induction a as [|x a IH]; simpl; [reflexivity | now rewrite IH]. Qed.

(** The first [n] characters of a text that has at least [n]. *)
Lemma substring0_split (n : nat) (s : string) :
  n <= String.length s ->
  exists cut,
    s = String.substring 0 n s ++ cut
    /\ String.length (String.substring 0 n s) = n.
Proof.
  revert s. induction n as [|n IH]; intros s Hn.
  - exists s. destruct s; auto.
  - destruct s as [|c s]; simpl in Hn; [lia|].
    destruct (IH s ltac:(lia)) as (cut & Hs & Hlen).
    exists cut. simpl. split; [now rewrite <- Hs | now rewrite Hlen].
Qed.

Lemma substring0_app (a b : string) :
  String.substring 0 (String.length a) (a ++ b) = a.
Proof.
  induction a as [|c a IH]; simpl.
  - now destruct b.
  - now rewrite IH.
Qed.

Lemma substring_from_start (s : string) (m : Z) :
  (m < Z.of_nat (String.length s))%Z ->
  substring s 0 m = String.substring 0 (Z.to_nat (Z.max m 0)) s.
Proof.
  intros Hm. unfold substring, clamp.
  replace (Z.to_nat (Z.min (Z.max 0 0) (Z.of_nat (String.length s)))) with 0
    by lia.
  replace (Z.min (Z.max m 0) (Z.of_nat (String.length s))) with (Z.max m 0)
    by lia.
  rewrite Nat.min_0_l, Nat.max_0_l, Nat.sub_0_r. reflexivity.
Qed.

Lemma split_nonempty (sep : ascii) (s : string) : split sep s <> [].
Proof.
  destruct s as [|c t]; simpl; [discriminate|].
  destruct (Ascii.eqb c sep); [discriminate|].
  destruct (split sep t); discriminate.
Qed.

(** Splitting at a character and joining with it gives the text back. *)
Lemma join_split (sep : ascii) (s : string) :
  Js.join (String sep "") (split sep s) = s.
Proof.
  induction s as [|c t IH]; [reflexivity|].
  simpl split. destruct (Ascii.eqb_spec c sep) as [->|Hne].
  - pose proof (split_nonempty sep t) as Hne.
    destruct (split sep t) as [|w ws]; [contradiction|].
    change (Js.join (String sep "") ("" :: w :: ws))
      with ("" ++ String sep "" ++ Js.join (String sep "") (w :: ws)).
    now rewrite IH.
  - pose proof (split_nonempty sep t) as Hsp.
    destruct (split sep t) as [|w ws]; [contradiction|].
    destruct ws as [|w' ws].
    + simpl in *. now rewrite IH.
    + change (Js.join (String sep "") (String c w :: w' :: ws))
        with (String c (w ++ String sep "" ++ Js.join (String sep "") (w' :: ws))).
      change (Js.join (String sep "") (w :: w' :: ws))
        with (w ++ String sep "" ++ Js.join (String sep "") (w' :: ws)) in IH.
      now rewrite IH.
Qed.

(** Joining the first parts gives a prefix of joining them all. *)
Lemma join_firstn_prefix (sep : string) (n : nat) (parts : list string) :
  exists rest, Js.join sep parts = Js.join sep (firstn n parts) ++ rest.
Proof.
  revert n. induction parts as [|p ps IH]; intros n.
  - exists "". now destruct n.
  - destruct n as [|n].
    + exists (Js.join sep (p :: ps)). reflexivity.
    + destruct ps as [|q qs].
      * exists "". simpl. destruct n; simpl; now rewrite string_app_nil_r.
      * destruct (IH n) as [rest Hrest].
        destruct n as [|n].
        -- exists (sep ++ Js.join sep (q :: qs)). reflexivity.
        -- change (firstn (S (S n)) (p :: q :: qs))
             with (p :: q :: firstn n qs).
           change (firstn (S n) (q :: qs)) with (q :: firstn n qs) in Hrest.
           exists rest.
           change (Js.join sep (p :: q :: qs))
             with (p ++ sep ++ Js.join sep (q :: qs)).
           change (Js.join sep (p :: q :: firstn n qs))
             with (p ++ sep ++ Js.join sep (q :: firstn n qs)).
           rewrite Hrest. now rewrite !string_app_assoc.
Qed.

Lemma split_no_sep (sep : ascii) (s : string) :
  Forall (fun part => forall a b, part <> a ++ String sep b) (split sep s).
Proof.
  induction s as [|c t IH]; simpl.
  - constructor; [|constructor]. intros [|x a] b; discriminate.
  - destruct (Ascii.eqb_spec c sep) as [->|Hne].
    + constructor; [|exact IH]. intros [|x a] b; discriminate.
    + destruct (split sep t) as [|w ws].
      * constructor; [|constructor].
        intros [|x a] b; simpl; [congruence|]. destruct a; discriminate.
      * inversion IH as [|? ? Hw Hws]; subst. constructor; [|exact Hws].
        intros [|x a] b; simpl; intros Heq; injection Heq as Hc Hw'.
        -- congruence.
        -- exact (Hw a b Hw').
Qed.

(** A joined text is its last part, or ends with the separator and its last
    part. *)
Lemma join_last (sep : string) (parts : list string) :
  parts <> [] ->
  Js.join sep parts = last parts ""
  \/ exists stem, Js.join sep parts = stem ++ sep ++ last parts "".
Proof.
  induction parts as [|p ps IH]; intros Hne; [contradiction|].
  destruct ps as [|q qs]; [now left|]. right.
  change (Js.join sep (p :: q :: qs)) with (p ++ sep ++ Js.join sep (q :: qs)).
  change (last (p :: q :: qs) "") with (last (q :: qs) "").
  destruct (IH ltac:(discriminate)) as [Hlast | [stem Hstem]].
  - exists p. now rewrite Hlast.
  - exists (p ++ sep ++ stem). rewrite Hstem. now rewrite !string_app_assoc.
Qed.

End JsTextFacts.

(** X1.  [truncateText] returns a text of at most [maxLength] characters
    unchanged; a longer text is cut to its first [maxLength] characters (none
    for a negative bound) followed by three dots, which makes the result
    [maxLength + 3] long, longer than a text of [maxLength + 1] or
    [maxLength + 2] characters; truncating the result again changes nothing;
    the bound is 100 when omitted. *)
Theorem truncateText_cut_and_idempotent (text : string) (maxLength : Z) :
  let shown := HistoryText.truncateText text (Some maxLength) in
  ((Z.of_nat (String.length text) <= maxLength)%Z -> shown = text)
  /\ ((maxLength < Z.of_nat (String.length text))%Z ->
      exists kept cut,
        text = kept ++ cut /\ shown = kept ++ "..."
        /\ Z.of_nat (String.length kept) = Z.max maxLength 0
        /\ Z.of_nat (String.length shown) = (Z.max maxLength 0 + 3)%Z)
  /\ HistoryText.truncateText shown (Some maxLength) = shown
  /\ HistoryText.truncateText text None
     = HistoryText.truncateText text (Some 100%Z).
Proof.
  intros shown.
  assert (Hlong : (maxLength < Z.of_nat (String.length text))%Z ->
    exists kept cut,
      text = kept ++ cut /\ shown = kept ++ "..."
      /\ Z.of_nat (String.length kept) = Z.max maxLength 0
      /\ Z.of_nat (String.length shown) = (Z.max maxLength 0 + 3)%Z).
  { intros Hlt. unfold shown, HistoryText.truncateText, Api.default_param.
    destruct (Z.leb_spec (Z.of_nat (String.length text)) maxLength); [lia|].
    rewrite substring_from_start by exact Hlt.
    destruct (substring0_split (Z.to_nat (Z.max maxLength 0)) text ltac:(lia))
      as (cut & Htext & Hlen).
    exists (String.substring 0 (Z.to_nat (Z.max maxLength 0)) text), cut.
    split; [exact Htext|]. split; [reflexivity|].
    rewrite string_app_length, Hlen. simpl. lia. }
  split; [|split; [exact Hlong|split; [|reflexivity]]].
  - intros Hle. unfold shown, HistoryText.truncateText, Api.default_param.
    destruct (Z.leb_spec (Z.of_nat (String.length text)) maxLength);
      [reflexivity | lia].
  - destruct (Z.leb_spec (Z.of_nat (String.length text)) maxLength) as [Hle|Hlt].
    + unfold shown, HistoryText.truncateText, Api.default_param.
      destruct (Z.leb_spec (Z.of_nat (String.length text)) maxLength); [|lia].
      destruct (Z.leb_spec (Z.of_nat (String.length text)) maxLength);
        [reflexivity | lia].
    + destruct (Hlong Hlt) as (kept & cut & _ & Hshown & Hkept & Hlen).
      rewrite Hshown in *. unfold HistoryText.truncateText, Api.default_param.
      destruct (Z.leb_spec (Z.of_nat (String.length (kept ++ "..."))) maxLength);
        [lia|].
      rewrite substring_from_start by lia.
      replace (Z.to_nat (Z.max maxLength 0)) with (String.length kept) by lia.
      now rewrite substring0_app.
Qed.

(** X2.  The preview of a story is the text up to its twelfth space-separated
    word: it is a prefix of the story, it is the whole story when the story
    has at most twelve such words, and splitting at spaces and joining with
    spaces loses nothing. *)
Theorem preview_is_prefix_of_story (story : string) :
  (exists rest, story = StoryPreview.preview story ++ rest)
  /\ (List.length (JsText.split " " story) <= 12 ->
      StoryPreview.preview story = story)
  /\ Js.join " " (JsText.split " " story) = story.
Proof.
  unfold StoryPreview.preview, JsText.slice0.
  pose proof (join_split " "%char story) as Hround.
  split; [|split; [|exact Hround]].
  - destruct (join_firstn_prefix " " 12 (JsText.split " " story)) as [rest Hrest].
    exists rest. now rewrite <- Hrest.
  - intros Hshort. now rewrite firstn_all2.
Qed.

(** X3.  The extension [handleFileUpload] tests is the lower-case form of
    what follows the last dot of the file name, and of the whole name when
    it has no dot; so the file is taken for a PDF exactly when that part
    reads "pdf" in any letter case, a file named "PDF" included. *)
Theorem fileExtension_after_last_dot (name : string) :
  exists raw,
    Upload.fileExtension name = Text.lower raw
    /\ (name = raw \/ exists stem, name = stem ++ "." ++ raw)
    /\ (forall a b, raw <> a ++ "." ++ b)
    /\ (Upload.isPdf name = true <-> Text.lower raw = "pdf").
Proof.
  unfold Upload.isPdf, Upload.fileExtension, JsText.toLowerCase, JsText.pop.
  exists (last (JsText.split "." name) "").
  split; [reflexivity|].
  pose proof (join_split "."%char name) as Hround.
  pose proof (split_no_sep "."%char name) as Hsep.
  pose proof (split_nonempty "."%char name) as Hne.
  split; [|split].
  - pose proof (join_last "." (JsText.split "." name) Hne) as Hlast.
    rewrite Hround in Hlast. exact Hlast.
  - rewrite Forall_forall in Hsep. apply Hsep.
    destruct (JsText.split "." name) as [|p ps]; [contradiction|].
    apply (@exists_last _ (p :: ps)) in Hne as (front & x & Hx).
    rewrite Hx, last_last. apply in_or_app. right. now left.
  - apply String.eqb_eq.
Qed.

(** ** Role badge *)

Section RoleBadgeFacts.
Import JsText RoleBadge.

Lemma str_in_trans (a b c : string) :
  Text.str_in a b = true -> Text.str_in b c = true -> Text.str_in a c = true.
Proof.
  rewrite !str_in_spec. intros (p & q & ->) (r & s & ->).
  exists (r ++ p), (q ++ s). now rewrite !string_app_assoc.
Qed.

Lemma str_in_refl (a : string) : Text.str_in a a = true.
Proof. apply str_in_spec. exists "", "". simpl. now rewrite string_app_nil_r. Qed.

(** What the loop answers: the first key, in map order, that the role text
    contains. *)
Lemma first_key_spec (entries : list (string * (string * Icon))) (r : string) :
  match first_key entries r with
  | Some info =>
      exists earlier later,
        entries = (earlier ++ (role info, (color info, icon info)) :: later)%list
        /\ Text.str_in (role info) r = true
        /\ Forall (fun e => Text.str_in (fst e) r = false) earlier
  | None => Forall (fun e => Text.str_in (fst e) r = false) entries
  end.
Proof.
  induction entries as [|[key [col ic]] rest IH]; simpl; [constructor|].
  unfold includes. destruct (Text.str_in key r) eqn:Hkey.
  - exists [], rest. simpl. auto.
  - destruct (first_key rest r) as [info|].
    + destruct IH as (earlier & later & -> & Hin & Hnone).
      exists ((key, (col, ic)) :: earlier), later. simpl.
      repeat split; auto.
    + constructor; auto.
Qed.

(** X4.  The badge's role is never "administrator": a role text that
    contains it also contains the earlier key "admin".  When the role is a
    key of the map it is the first key, in map order, that the role text of
    the story contains, and the colour is one of the six the card styles. *)
Theorem getRoleInfo_first_key_shadows (story : string) :
  role (getRoleInfo story) <> "administrator"
  /\ In (color (getRoleInfo story))
        ["blue"; "green"; "purple"; "orange"; "teal"; "gray"]
  /\ (forall group,
         match_role story = Some group ->
         forall earlier key later,
           roleMap = (earlier ++ key :: later)%list ->
           includes (trim (toLowerCase group)) (fst key) = true ->
           Forall (fun e => includes (trim (toLowerCase group)) (fst e) = false)
                  earlier ->
           getRoleInfo story
           = mkRoleInfo (fst key) (fst (snd key)) (snd (snd key))).
Proof.
  unfold getRoleInfo.
  destruct (match_role story) as [group|]; cbv zeta.
  2:{ split; [discriminate|]. split; [simpl; auto|]. discriminate. }
  set (r := trim (toLowerCase group)).
  pose proof (first_key_spec roleMap r) as Hspec.
  destruct (first_key roleMap r) as [info|] eqn:Hfirst.
  - destruct Hspec as (earlier & later & Hmap & Hin & Hnone).
    assert (Hcolor : In (color info)
                        ["blue"; "green"; "purple"; "orange"; "teal"; "gray"]).
    { assert (Hmem : In (role info, (color info, icon info)) roleMap)
        by (rewrite Hmap; apply in_or_app; right; now left).
      unfold roleMap in Hmem. simpl in Hmem.
      repeat (destruct Hmem as [Hmem|Hmem];
              [injection Hmem as _ <- _; simpl; tauto|]).
      contradiction. }
    split; [|split; [exact Hcolor|]].
    + intros Hadm.
      assert (Hadmin : Text.str_in "admin" r = true).
      { apply (str_in_trans "admin" "administrator" r); [reflexivity|].
        now rewrite <- Hadm. }
      assert (Hearlier : In ("admin", ("green", Shield)) earlier).
      { unfold roleMap in Hmap. rewrite Hadm in Hmap.
        destruct earlier as [|e0 [|e1 [|e2 earlier]]];
          simpl in Hmap; try discriminate.
        all: inversion Hmap; subst; simpl; auto. }
      rewrite Forall_forall in Hnone. specialize (Hnone _ Hearlier).
      simpl in Hnone. congruence.
    + intros g Hg earlier' key later' Hmap' Hkey Hnone'.
      injection Hg as <-. fold r in Hkey, Hnone'. unfold includes in *.
      destruct info as [k c i]. simpl in *.
      assert (Hsame : earlier = earlier').
      { clear Hfirst Hcolor. revert earlier' Hmap' Hnone'.
        rewrite Hmap. clear Hmap.
        induction earlier as [|e es IH]; intros [|e' es'] Hmap' Hnone'.
        - reflexivity.
        - simpl in Hmap'. injection Hmap' as <- _.
          inversion Hnone' as [|? ? He _]; subst. simpl in He. congruence.
        - simpl in Hmap'. injection Hmap' as -> _.
          inversion Hnone as [|? ? He _]; subst. congruence.
        - simpl in Hmap'. injection Hmap' as <- Hrest.
          inversion Hnone as [|? ? _ Hn]; subst.
          inversion Hnone' as [|? ? _ Hn']; subst.
          f_equal. now apply IH. }
      subst earlier'. rewrite Hmap in Hmap'.
      apply app_inv_head in Hmap'. injection Hmap' as <- _. reflexivity.
  - split; [|split; [simpl; auto|]].
    + simpl. intros Hadm. rewrite Forall_forall in Hspec.
      assert (Hno : Text.str_in "admin" r = false)
        by (apply (Hspec ("admin", ("green", Shield))); simpl; auto).
      rewrite Hadm in Hno. discriminate.
    + intros g Hg earlier key later Hmap Hkey _. injection Hg as <-.
      fold r in Hkey. unfold includes in Hkey.
      rewrite Forall_forall in Hspec.
      rewrite (Hspec key) in Hkey; [discriminate|].
      rewrite Hmap. apply in_or_app. right. now left.
Qed.

End RoleBadgeFacts.

Section RoleBadgeCaseFacts.
Import JsText RoleBadge.

(** A change of letter case, character by character. *)
Variable recase : ascii -> ascii.


Hypothesis recase_upper : forall c, upper_char (recase c) = upper_char c.
Hypothesis recase_lower : forall c, Text.lower_char (recase c) = Text.lower_char c.
Hypothesis recase_comma :
  forall c, Ascii.eqb (recase c) ","%char = Ascii.eqb c ","%char.
Hypothesis recase_line_end : forall c, is_line_end (recase c) = is_line_end c.

Lemma starts_with_ci_recase (pattern s : string) :
  starts_with_ci pattern (map_chars recase s) = starts_with_ci pattern s.
Proof.
  revert s. induction pattern as [|p pattern IH]; intros [|c t]; simpl; auto.
  now rewrite recase_upper, IH.
Qed.

Lemma until_comma_recase (s : string) :
  until_comma (map_chars recase s) = option_map (map_chars recase) (until_comma s).
Proof.
  induction s as [|c t IH]; simpl; [reflexivity|].
  rewrite recase_comma, recase_line_end, IH.
  destruct (Ascii.eqb c ","); [reflexivity|].
  destruct (is_line_end c); [reflexivity|].
  now destruct (until_comma t).
Qed.

Lemma drop_recase (n : nat) (s : string) :
  drop n (map_chars recase s) = map_chars recase (drop n s).
Proof. revert s. induction n as [|n IH]; intros [|c t]; simpl; auto. Qed.

Lemma match_role_recase (s : string) :
  match_role (map_chars recase s) = option_map (map_chars recase) (match_role s).
Proof.
  induction s as [|c t IH].
  - reflexivity.
  - change (map_chars recase (String c t)) with (String (recase c) (map_chars recase t)).
    cbn [match_role].
    change (String (recase c) (map_chars recase t)) with (map_chars recase (String c t)).
    rewrite starts_with_ci_recase, drop_recase, until_comma_recase.
    destruct (starts_with_ci "As a " (String c t)).
    + destruct (until_comma (drop 5 (String c t))); [reflexivity | exact IH].
    + exact IH.
Qed.

Lemma lower_recase (s : string) : Text.lower (map_chars recase s) = Text.lower s.
Proof.
  induction s as [|c t IH]; simpl; [reflexivity|].
  now rewrite recase_lower, IH.
Qed.

Lemma getRoleInfo_recase (story : string) :
  getRoleInfo (map_chars recase story) = getRoleInfo story.
Proof.
  unfold getRoleInfo. rewrite match_role_recase.
  destruct (match_role story) as [group|]; simpl; [|reflexivity].
  unfold toLowerCase. now rewrite lower_recase.
Qed.

End RoleBadgeCaseFacts.

Section RoleBadgeClauseFacts.
Import JsText RoleBadge.

Lemma recase_all_lower (s : string) : map_chars Text.lower_char s = Text.lower s.
Proof. induction s as [|c t IH]; simpl; [reflexivity | now rewrite IH]. Qed.

Lemma recase_all_upper (s : string) : map_chars upper_char s = toUpperCase s.
Proof. induction s as [|c t IH]; simpl; [reflexivity | now rewrite IH]. Qed.

Ltac by_cases_on_char :=
  let c := fresh "c" in
  intros c; destruct c as [[] [] [] [] [] [] [] []]; reflexivity.

Lemma until_comma_sound (s group : string) :
  until_comma s = Some group -> exists rest, s = group ++ "," ++ rest.
Proof.
  revert group. induction s as [|c t IH]; intros group; simpl; [discriminate|].
  destruct (Ascii.eqb_spec c ","%char) as [->|Hne].
  - intros [= <-]. now exists t.
  - destruct (is_line_end c); [discriminate|].
    destruct (until_comma t) as [g|]; [|discriminate].
    intros [= <-]. destruct (IH g eq_refl) as [rest ->]. now exists rest.
Qed.

Lemma drop_suffix (n : nat) (s : string) : exists front, s = front ++ drop n s.
Proof.
  revert s. induction n as [|n IH]; intros s.
  - exists "". now destruct s.
  - destruct s as [|c t]; [now exists ""|].
    destruct (IH t) as [front Hfront]. exists (String c front).
    simpl. now rewrite <- Hfront.
Qed.

Lemma match_role_has_comma (s group : string) :
  match_role s = Some group -> exists a b, s = a ++ "," ++ b.
Proof.
  induction s as [|c t IH]; cbn [match_role].
  - destruct (starts_with_ci "As a " ""); simpl; discriminate.
  - destruct (if starts_with_ci "As a " (String c t)
              then until_comma (drop 5 (String c t)) else None) as [g|] eqn:Hhere.
    + intros _.
      destruct (starts_with_ci "As a " (String c t)); [|discriminate].
      destruct (until_comma_sound _ _ Hhere) as [rest Hrest].
      destruct (drop_suffix 5 (String c t)) as [front Hfront].
      exists (front ++ g), rest. rewrite Hfront at 1. rewrite Hrest.
      now rewrite !string_app_assoc.
    + intros Ht. destruct (IH Ht) as (a & b & ->).
      now exists (String c a), b.
Qed.


(** X5.  For a story written in ASCII characters the badge does not depend
    on the letter case: the story in lower case and the story in upper case
    get the badge of the story as written.  A story without a comma gets
    the default badge, role "user" in blue. *)
Theorem getRoleInfo_ignores_letter_case (story : string)
    (Hascii : ascii_only story = true) :
  getRoleInfo (toLowerCase story) = getRoleInfo story
  /\ getRoleInfo (toUpperCase story) = getRoleInfo story
  /\ ((forall a b, story <> a ++ "," ++ b) ->
      getRoleInfo story = mkRoleInfo "user" "blue" User).
Proof.
  split; [|split].
  - unfold toLowerCase. rewrite <- recase_all_lower.
    apply getRoleInfo_recase; by_cases_on_char.
  - rewrite <- recase_all_upper.
    apply getRoleInfo_recase; by_cases_on_char.
  - intros Hnone. unfold getRoleInfo.
    destruct (match_role story) as [group|] eqn:Hm; [|reflexivity].
    destruct (match_role_has_comma _ _ Hm) as (a & b & Hab).
    now apply Hnone in Hab.
Qed.


End RoleBadgeClauseFacts.

(** ** Expanded stories *)

Section ExpansionFacts.
Import Expansion.

Lemma has_In (s : IndexSet) (i : nat) : has s i = true <-> In i s.
Proof.
  unfold has. rewrite existsb_exists. split.
  - intros (j & Hin & Heq). apply Nat.eqb_eq in Heq. now subst.
  - intros Hin. exists i. split; [exact Hin | apply Nat.eqb_refl].
Qed.

Lemma has_add (s : IndexSet) (i j : nat) :
  has (add s i) j = (Nat.eqb j i || has s j).
Proof.
  unfold add. destruct (has s i) eqn:Hi.
  - destruct (Nat.eqb_spec j i) as [->|]; [now rewrite Hi | reflexivity].
  - unfold has. rewrite existsb_app. simpl.
    rewrite orb_false_r. apply orb_comm.
Qed.

Lemma has_delete (s : IndexSet) (i j : nat) :
  has (delete s i) j = (negb (Nat.eqb j i) && has s j).
Proof.
  apply eq_iff_eq_true.
  rewrite andb_true_iff, negb_true_iff, !has_In, Nat.eqb_neq.
  unfold delete. rewrite filter_In, negb_true_iff, Nat.eqb_neq. tauto.
Qed.

Lemma NoDup_add (s : IndexSet) (i : nat) : NoDup s -> NoDup (add s i).
Proof.
  intros Hs. unfold add. destruct (has s i) eqn:Hi; [exact Hs|].
  apply NoDup_app; [exact Hs | repeat constructor; auto |].
  intros x Hx [<-|[]]. apply (proj2 (has_In _ _)) in Hx. congruence.
Qed.

Lemma NoDup_delete (s : IndexSet) (i : nat) : NoDup s -> NoDup (delete s i).
Proof. apply NoDup_filter. Qed.

(** Copying a set that holds each element once gives the same set. *)
Lemma from_NoDup_acc (items acc : IndexSet) :
  NoDup (acc ++ items) -> fold_left add items acc = (acc ++ items)%list.
Proof.
  revert acc. induction items as [|x items IH]; intros acc Hnd; simpl.
  - now rewrite app_nil_r.
  - assert (Hx : has acc x = false).
    { destruct (has acc x) eqn:Hx; [|reflexivity].
      apply (proj1 (has_In _ _)) in Hx. apply NoDup_remove_2 in Hnd.
      exfalso. apply Hnd. apply in_or_app. now left. }
    unfold add at 2. rewrite Hx.
    rewrite IH; rewrite <- app_assoc; [reflexivity | exact Hnd].
Qed.

Lemma from_NoDup (s : IndexSet) : NoDup s -> from s = s.
Proof. intros Hs. unfold from. now rewrite from_NoDup_acc. Qed.

Lemma expandAll_is_seq (n : nat) : expandAllStories n = seq 0 n.
Proof. unfold expandAllStories. apply from_NoDup, seq_NoDup. Qed.

Lemma toggle_NoDup (s : IndexSet) (i : nat) :
  NoDup s -> NoDup (toggleStoryExpansion s i).
Proof.
  intros Hs. unfold toggleStoryExpansion. cbv zeta. rewrite (from_NoDup s Hs).
  destruct (has s i); [now apply NoDup_delete | now apply NoDup_add].
Qed.

Lemma has_toggle (s : IndexSet) (i j : nat) :
  NoDup s ->
  has (toggleStoryExpansion s i) j
  = if Nat.eqb j i then negb (has s i) else has s j.
Proof.
  intros Hs. unfold toggleStoryExpansion. cbv zeta. rewrite (from_NoDup s Hs).
  destruct (has s i) eqn:Hi.
  - rewrite has_delete. destruct (Nat.eqb_spec j i); reflexivity.
  - rewrite has_add. destruct (Nat.eqb_spec j i); reflexivity.
Qed.

(** The state reached by clicks on rendered cards holds each index once and
    only indices of stories. *)
Lemma clicks_invariant (n : nat) (clicks : list Click) :
  forallb (on_a_card n) clicks = true ->
  forall s, NoDup s -> (forall i, In i s -> i < n) ->
  let s' := fold_left (click n) clicks s in
  NoDup s' /\ (forall i, In i s' -> i < n).
Proof.
  induction clicks as [|c clicks IH]; intros Hvalid s Hnd Hlt; simpl in *.
  - auto.
  - apply andb_true_iff in Hvalid as [Hc Hrest].
    apply IH; [exact Hrest | |].
    + destruct c; simpl.
      * now apply toggle_NoDup.
      * rewrite expandAll_is_seq. apply seq_NoDup.
      * constructor.
    + intros i Hi. destruct c as [index| |]; simpl in *.
      * apply (proj2 (has_In _ _)) in Hi.
        rewrite has_toggle in Hi by exact Hnd.
        destruct (Nat.eqb_spec i index) as [Heq|Hneq].
        -- rewrite Heq. now apply Nat.ltb_lt.
        -- apply Hlt. now apply (proj1 (has_In _ _)).
      * rewrite expandAll_is_seq in Hi. apply (proj1 (in_seq _ _ _)) in Hi. lia.
      * contradiction.
Qed.

End ExpansionFacts.

(** X7.  Starting from no card expanded, any sequence of toggles of rendered
    cards, "Expand All" and "Collapse All" leaves a set in which every member
    is the index of a story, so the count shown as "expanded" never exceeds
    the number of stories. *)
Theorem expanded_count_within_stories
    (stories_length : nat) (clicks : list Expansion.Click)
    (Hcards : forallb (Expansion.on_a_card stories_length) clicks = true) :
  let expanded := Expansion.after_clicks stories_length clicks in
  Expansion.size expanded <= stories_length
  /\ NoDup expanded
  /\ forall i, Expansion.has expanded i = true -> i < stories_length.
Proof.
  intros expanded.
  destruct (clicks_invariant stories_length clicks Hcards []
              (NoDup_nil _) (fun i H => match H with end)) as [Hnd Hlt].
  fold (Expansion.after_clicks stories_length clicks) in Hnd, Hlt.
  fold expanded in Hnd, Hlt.
  split; [|split; [exact Hnd|]].
  - unfold Expansion.size. rewrite <- (length_seq stories_length 0).
    apply NoDup_incl_length; [exact Hnd|].
    intros i Hi. apply in_seq. specialize (Hlt i Hi). lia.
  - intros i Hi. apply Hlt. now apply has_In.
Qed.

(** X8.  Toggling a card flips its membership and no other card's, so
    toggling the same card twice restores every card; "Expand All" expands
    exactly the cards of the stories and counts them all; "Collapse All"
    leaves none. *)
Theorem toggle_flips_one_card
    (expanded : Expansion.IndexSet) (index : nat) (Hset : NoDup expanded) :
  (forall j,
      Expansion.has (Expansion.toggleStoryExpansion expanded index) j
      = if Nat.eqb j index then negb (Expansion.has expanded index)
        else Expansion.has expanded j)
  /\ (forall j,
         Expansion.has
           (Expansion.toggleStoryExpansion
              (Expansion.toggleStoryExpansion expanded index) index) j
         = Expansion.has expanded j)
  /\ (forall n j, Expansion.has (Expansion.expandAllStories n) j = (j <? n)%nat)
  /\ (forall n, Expansion.size (Expansion.expandAllStories n) = n)
  /\ Expansion.size Expansion.collapseAllStories = 0.
Proof.
  split; [|split; [|split; [|split]]].
  - intros j. now apply has_toggle.
  - intros j. rewrite !has_toggle; auto using toggle_NoDup.
    rewrite Nat.eqb_refl.
    destruct (Nat.eqb_spec j index) as [->|]; [apply negb_involutive|reflexivity].
  - intros n j. rewrite expandAll_is_seq.
    destruct (Nat.ltb_spec j n) as [Hlt|Hge].
    + apply has_In, in_seq. lia.
    + destruct (Expansion.has (seq 0 n) j) eqn:Hj; [|reflexivity].
      apply (proj1 (has_In _ _)) in Hj. apply (proj1 (in_seq _ _ _)) in Hj. lia.
  - intros n. rewrite expandAll_is_seq. apply length_seq.
  - reflexivity.
Qed.

(** ** The export handler past its guards *)

Section HandleExportFacts.
Import Js.

Lemma app_not_empty (a b : string) : a <> "" -> a ++ b <> "".
Proof. destruct a; [contradiction | discriminate]. Qed.

Lemma shown_error_not_empty (m : string) :
  to_string (or_else (JsString m) (JsString "Failed to export stories to Jira"))
  <> "".
Proof.
  unfold or_else. simpl. destruct (String.eqb_spec m ""); simpl;
    [discriminate | assumption].
Qed.

Lemma no_stories_cons (first : JsValue) (others : list JsValue) :
  JiraExport.no_stories (JsArray (first :: others)) = false.
Proof.
  unfold JiraExport.no_stories. cbn [truthy negb orb get_length strict_eq_zero].
  apply Z.eqb_neq. simpl List.length. lia.
Qed.

(** X9.  With a project selected and at least one story, [handleExport]
    makes exactly one call, a POST of the stories as given with the selected
    project and the component's group settings; when it is done [exporting]
    is false again and exactly one of the two messages is set: the error
    message on a failure, the success message otherwise. *)
Theorem handleExport_one_call_one_message
    (transport : Api.Transport) (first : JsValue) (others : list JsValue)
    (onExportComplete : bool) (st : JiraExport.State)
    (Hproject : JiraExport.selectedProject st <> "") :
  let userStories := JsArray (first :: others) in
  let run := JiraExport.handleExport transport userStories onExportComplete st in
  JiraExport.network_calls (snd run)
  = [Api.mkSent "/jira/export-stories"
       (Api.mkExportRequest userStories (JiraExport.selectedProject st)
          (JiraExport.createEpic st) (JiraExport.epicName st))]
  /\ JiraExport.exporting (fst run) = false
  /\ (JiraExport.error (fst run) = "" <-> JiraExport.success (fst run) <> "")
  /\ JiraExport.selectedProject (fst run) = JiraExport.selectedProject st
  /\ JiraExport.createEpic (fst run) = JiraExport.createEpic st
  /\ JiraExport.epicName (fst run) = JiraExport.epicName st.
Proof.
  intros userStories run. subst run. unfold JiraExport.handleExport.
  cbn [truthy]. destruct (String.eqb_spec (JiraExport.selectedProject st) "");
    [contradiction|]. cbn [negb].
  unfold userStories. rewrite no_stories_cons.
  unfold Api.exportStories, Api.post, Api.default_param. cbv zeta.
  cbn [JiraExport.selectedProject JiraExport.createEpic JiraExport.epicName
       JiraExport.setSuccess JiraExport.setError JiraExport.setExporting].
  set (request := Api.mkExportRequest _ _ _ _).
  destruct (transport "/jira/export-stories" request) as [err|resp];
    cbn [bind].
  - cbn. repeat split; auto.
    + intros H. exfalso. exact (shown_error_not_empty _ H).
    + intros H. now contradiction H.
  - unfold Api.on_response.
    destruct (get_prop (Api.data resp) "export_result") as [e|export_result];
      cbn [bind].
    { cbn. repeat split; auto.
      - intros H. exfalso. exact (shown_error_not_empty _ H).
      - intros H. now contradiction H. }
    destruct (get_prop export_result "total_exported") as [e|total];
      cbn [bind].
    { cbn. repeat split; auto.
      - intros H. exfalso. exact (shown_error_not_empty _ H).
      - intros H. now contradiction H. }
    destruct (get_prop export_result "epic") as [e|epic]; cbn [bind].
    { cbn. repeat split; auto.
      - intros H. exfalso. exact (shown_error_not_empty _ H).
      - intros H. now contradiction H. }
    destruct (truthy epic).
    + destruct (get_prop epic "key") as [e|key]; cbn [bind].
      { cbn. repeat split; auto.
        - intros H. exfalso. exact (shown_error_not_empty _ H).
        - intros H. now contradiction H. }
      cbn. destruct onExportComplete; cbn; repeat split; auto; discriminate.
    + cbn. destruct onExportComplete; cbn; repeat split; auto; discriminate.
Qed.

(** X10.  What the user reads after a failed export.  When the server
    answers with an error whose body carries a non-empty string [detail],
    the error message of the component is that [detail]; when no answer
    came back it is the connection message of the interceptor; in every
    failure the success message is empty and the error message is not. *)
Theorem handleExport_shows_server_detail
    (transport : Api.Transport) (first : JsValue) (others : list JsValue)
    (onExportComplete : bool) (st : JiraExport.State) (failure : Api.AxiosError)
    (Hproject : JiraExport.selectedProject st <> "")
    (Hfails : forall url body, transport url body = inl failure) :
  let run := JiraExport.handleExport transport (JsArray (first :: others))
               onExportComplete st in
  JiraExport.success (fst run) = ""
  /\ JiraExport.error (fst run) <> ""
  /\ (forall r fields detail,
         Api.response failure = Some r ->
         Api.data r = JsObject fields ->
         lookup "detail" fields = JsString detail -> detail <> "" ->
         JiraExport.error (fst run) = detail)
  /\ (Api.response failure = None -> Api.request failure = true ->
      JiraExport.error (fst run)
      = "No response from server. Please check your connection.").
Proof.
  intros run. subst run. unfold JiraExport.handleExport.
  cbn [truthy]. destruct (String.eqb_spec (JiraExport.selectedProject st) "");
    [contradiction|]. cbn [negb].
  rewrite no_stories_cons.
  unfold Api.exportStories, Api.post, Api.default_param. cbv zeta.
  rewrite Hfails. cbn [bind fst snd JiraExport.success JiraExport.error
                       JiraExport.setExporting JiraExport.setError
                       JiraExport.setSuccess].
  split; [reflexivity|]. split; [apply shown_error_not_empty|]. split.
  - intros r fields detail Hr Hdata Hdetail Hne.
    assert (Hthrown : Api.on_response_error failure = ErrorObj detail).
    { unfold Api.on_response_error, Api.throw_detail_or. rewrite Hr. cbv zeta.
      rewrite Hdata. cbn [get_prop]. rewrite Hdetail.
      unfold new_Error, or_else. cbn [truthy].
      destruct (String.eqb_spec detail ""); [contradiction|]. cbn [negb].
      repeat match goal with |- context [if ?b then _ else _] => destruct b end;
        reflexivity. }
    rewrite Hthrown. unfold or_else. cbn.
    destruct (String.eqb_spec detail ""); [contradiction | reflexivity].
  - intros Hr Hreq. unfold Api.on_response_error. rewrite Hr, Hreq. reflexivity.
Qed.

End HandleExportFacts.

(** ** Downloads *)

(** X11.  A download posts the stories once, each with an
    [acceptance_criteria] array, and ends with the menu closed and
    [isDownloading] false.  It either saves one file and shows the success
    toast, or shows the error toast "Failed to download as <FORMAT>: Failed
    to download file": whatever the server's error says, its [detail] is not
    shown, because the error the interceptor throws carries no [response]. *)
Theorem download_failure_message_is_fixed
    (transport : Download.Transport) (atob : string -> option string)
    (stories : list Download.Item) (format : string) (st : Download.State) :
  let run := Download.downloadInFormat transport atob stories format st in
  let body :=
    Js.JsObject [("user_stories", Js.JsArray (map Download.storyObject stories));
                 ("format", Js.JsString format)] in
  let posted := Download.Posted "/download-user-stories" body in
  let failed :=
    Download.ToastError ("Failed to download as " ++ JsText.toUpperCase format
                         ++ ": Failed to download file") in
  fst run = Download.mkState false false
  /\ ((exists file,
          snd run
          = [posted; Download.Saved file;
             Download.ToastSuccess ("User stories downloaded as "
                                    ++ JsText.toUpperCase format ++ "!")])
      \/ snd run = [posted; failed])
  /\ (forall failure,
         transport "/download-user-stories" body = inl failure ->
         snd run = [posted; failed]).
Proof.
  intros run body posted failed. subst run.
  unfold Download.downloadInFormat, Download.downloadUserStories. cbv zeta.
  fold body.
  destruct (transport "/download-user-stories" body) as [failure|response].
  - assert (Hdetail : Download.response_detail_of (Api.on_response_error failure)
                      = Js.JsUndefined)
      by (destruct (Api.on_response_error failure); reflexivity).
    rewrite Hdetail. cbn. split; [reflexivity|]. split; [now right|].
    intros _ _. reflexivity.
  - destruct (Download.deliver atob (Api.data (Api.on_response response)) format)
      as [thrown|file].
    + assert (Hdetail : Download.response_detail_of thrown = Js.JsUndefined)
        by (destruct thrown; reflexivity).
      rewrite Hdetail. cbn. split; [reflexivity|]. split; [now right|].
      discriminate.
    + cbn. split; [reflexivity|]. split; [left; now exists file|].
      discriminate.
Qed.

(** ** Health check *)

Section JiraHealthFacts.
Import Js JiraHealth.

Lemma strict_eq_string_spec (v : JsValue) (text : string) :
  strict_eq_string v text = true <-> v = JsString text.
Proof.
  destruct v; simpl; try (split; congruence).
  rewrite String.eqb_eq. split; congruence.
Qed.

Lemma strict_eq_string_false (v : JsValue) (text : string) :
  v <> JsString text -> strict_eq_string v text = false.
Proof.
  intros Hne. destruct (strict_eq_string v text) eqn:H; [|reflexivity].
  apply strict_eq_string_spec in H. contradiction.
Qed.

(** The state [checkJiraHealth] leaves, by the answer of the call. *)
Lemma checkJiraHealth_state
    (get : string -> Api.AxiosError + Api.AxiosResponse) (st : State) :
  checkJiraHealth get st =
  match get "/jira/health" with
  | inl _ => mkState false (JsString "unhealthy")
                     "Failed to connect to Jira service"
  | inr response =>
      match get_prop (Api.data response) "status" with
      | inl _ => mkState false (JsString "unhealthy")
                         "Failed to connect to Jira service"
      | inr status =>
          mkState false status
                  (if strict_eq_string status "healthy" then ""
                   else "Jira service is not available")
      end
  end.
Proof.
  unfold checkJiraHealth, healthCheck, Api.on_response.
  destruct (get "/jira/health") as [failure|response]; cbn [bind];
    [reflexivity|].
  destruct (get_prop (Api.data response) "status") as [thrown|status];
    cbn [bind]; [reflexivity|].
  now destruct (strict_eq_string status "healthy").
Qed.

(** X12.  After [checkJiraHealth] the component is no longer loading and has
    no error exactly when the recorded health is 'healthy'.  A failed call
    shows the red panel with "Failed to connect to Jira service"; a server
    that reports 'healthy' shows the form with no error; one that reports
    'unhealthy' shows the red panel with "Jira service is not available";
    for any other reported status the panel reads "Checking..." and shows
    neither the form nor the error that was set. *)
Theorem checkJiraHealth_outcomes
    (get : string -> Api.AxiosError + Api.AxiosResponse) (st : State) :
  let st' := checkJiraHealth get st in
  loading st' = false
  /\ (error st' = "" <-> jiraHealth st' = JsString "healthy")
  /\ (forall failure,
         get "/jira/health" = inl failure ->
         render st' = Unavailable "Failed to connect to Jira service")
  /\ (forall response status,
         get "/jira/health" = inr response ->
         get_prop (Api.data response) "status" = inr status ->
         (status = JsString "healthy" ->
          render st' = ExportPanel "Connected" false true None)
         /\ (status = JsString "unhealthy" ->
             render st' = Unavailable "Jira service is not available")
         /\ (status <> JsString "healthy" -> status <> JsString "unhealthy" ->
             error st' = "Jira service is not available"
             /\ render st' = ExportPanel "Checking..." false false None)).
Proof.
  intros st'. subst st'. rewrite (checkJiraHealth_state get st).
  destruct (get "/jira/health") as [failure|response].
  - split; [reflexivity|]. split; [split; discriminate|].
    split; [intros; reflexivity | intros; discriminate].
  - destruct (get_prop (Api.data response) "status") as [thrown|status] eqn:Hget.
    + split; [reflexivity|]. split; [split; discriminate|].
      split; [intros; discriminate|].
      intros r s [= <-] Hs. congruence.
    + cbn [loading error jiraHealth].
      split; [reflexivity|]. split.
      * destruct (strict_eq_string status "healthy") eqn:Hh.
        -- apply strict_eq_string_spec in Hh. tauto.
        -- split; [discriminate|]. intros ->. discriminate.
      * split; [intros; discriminate|].
        intros r s [= <-] Hs. rewrite Hget in Hs. injection Hs as <-.
        split; [|split].
        -- intros ->. reflexivity.
        -- intros ->. reflexivity.
        -- intros Hnh Hnu. rewrite (strict_eq_string_false _ _ Hnh).
           split; [reflexivity|]. unfold render. cbn [loading error jiraHealth].
           now rewrite (strict_eq_string_false _ _ Hnu),
                       (strict_eq_string_false _ _ Hnh).
Qed.

End JiraHealthFacts.

(** ** History *)

(** X14.  [loadStories] does nothing while a load is in progress: no call,
    no change.  Otherwise it asks for ten entries starting at ten times the
    page number; when the call fails it shows "Failed to load history" and
    keeps the entries, the page and [hasMore] as they were, with [loading]
    false again. *)
Theorem loadStories_busy_and_failure
    (transport : History.Transport) (pageNum : Z) (st : History.State) :
  let run := History.loadStories transport (Some pageNum) st in
  (History.loading st = true -> run = (st, []))
  /\ (History.loading st = false ->
      exists rest, snd run = History.Get (pageNum * 10) 10 :: rest)
  /\ (History.loading st = false ->
      forall failure,
        transport (pageNum * 10)%Z 10%Z = inl failure ->
        run = (History.mkState (History.stories st) false (History.page st)
                 (History.hasMore st),
               [History.Get (pageNum * 10) 10;
                History.ToastError "Failed to load history"])).
Proof.
  intros run. subst run.
  unfold History.loadStories, History.getUserStories, Api.default_param.
  split; [|split].
  - intros ->. reflexivity.
  - intros ->. destruct (transport (pageNum * 10)%Z 10%Z); eexists; reflexivity.
  - intros -> failure ->. reflexivity.
Qed.

(** ** Classifier and estimator under longer narratives *)

Section NarrativeFacts.

Lemma str_in_extend (w before text after : string) :
  Text.str_in w text = true -> Text.str_in w (before ++ text ++ after) = true.
Proof.
  rewrite !str_in_spec. intros (p & q & ->).
  exists (before ++ p), (q ++ after). now rewrite !string_app_assoc.
Qed.

Lemma any_word_in_extend (words : list string) (before text after : string) :
  Text.any_word_in words (Text.lower text) = true ->
  Text.any_word_in words (Text.lower (before ++ text ++ after)) = true.
Proof.
  rewrite !any_word_in_spec. intros (w & Hin & Hw). exists w.
  split; [exact Hin|]. rewrite !lower_app. now apply str_in_extend.
Qed.

Lemma length_extend (before text after : string) :
  String.length text <= String.length (before ++ text ++ after).
Proof. rewrite !string_app_length. lia. Qed.

End NarrativeFacts.

(** X15.  Putting a narrative inside a longer text, with the criteria
    unchanged, never lowers the story: a High priority stays High, the
    component "User Management" stays, and the estimate does not
    decrease. *)
Theorem longer_narrative_never_lowers
    (before text after : string) (criteria : option (list string)) :
  let short := mkStoryData (Some text) criteria in
  let long := mkStoryData (Some (before ++ text ++ after)) criteria in
  (_determine_priority short = "High" -> _determine_priority long = "High")
  /\ (_determine_component short = "User Management" ->
      _determine_component long = "User Management")
  /\ (_estimate_story_points short <= _estimate_story_points long)%Z.
Proof.
  intros short long. split; [|split].
  - unfold _determine_priority, short, long. cbn [story get_default].
    destruct (Text.any_word_in _ (Text.lower text)) eqn:Hshort;
      [|discriminate].
    intros _. now rewrite (any_word_in_extend _ before text after Hshort).
  - unfold _determine_component, short, long. cbn [story get_default].
    destruct (Text.any_word_in ["login"; "user"; "profile"; "dashboard"]
                (Text.lower text)) eqn:Hshort.
    + intros _. now rewrite (any_word_in_extend _ before text after Hshort).
    + destruct (Text.any_word_in ["database"; "data"; "storage"] _);
        [discriminate|].
      destruct (Text.any_word_in ["api"; "endpoint"; "service"] _); discriminate.
  - rewrite !estimate_unfold. unfold criteria_count, story_length, Text.len.
    unfold short, long. cbn [story acceptance_criteria get_default].
    pose proof (length_extend before text after) as Hlen.
    repeat match goal with
           | |- context [ (?a <=? ?b)%Z ] => destruct (Z.leb_spec a b)
           | |- context [ (?a >? ?b)%Z ] =>
               rewrite (Z.gtb_ltb a b); destruct (Z.ltb_spec b a)
           end; lia.
Qed.

(** X16.  The example configuration answers Highest exactly for a narrative
    that names "security" or "login" in any letter case, and High or Medium
    otherwise.  Whenever it upgrades a story the built-in keyword list
    upgrades it too; a story that only the built-in list upgrades names
    "password". *)
Theorem example_priority_against_builtin (story_data : StoryData) :
  let narrative := get_default (story story_data) "" in
  let example := ExampleConfiguration._determine_priority story_data in
  In example ["Highest"; "High"; "Medium"]
  /\ (example = "Highest" <->
      occurs_ignoring_case "security" narrative
      \/ occurs_ignoring_case "login" narrative)
  /\ (example <> "Medium" -> _determine_priority story_data = "High")
  /\ (example = "Medium" -> _determine_priority story_data = "High" ->
      occurs_ignoring_case "password" narrative).
Proof.
  intros narrative example. subst example.
  unfold ExampleConfiguration._determine_priority, _determine_priority,
    Text.any_word_in. cbv zeta. fold narrative. cbn [existsb].
  rewrite <- (str_in_lower_spec "security" narrative eq_refl).
  rewrite <- (str_in_lower_spec "login" narrative eq_refl).
  rewrite <- (str_in_lower_spec "password" narrative eq_refl).
  generalize (Text.str_in "security" (Text.lower narrative)) as bs.
  generalize (Text.str_in "login" (Text.lower narrative)) as bl.
  generalize (Text.str_in "critical" (Text.lower narrative)) as bc.
  generalize (Text.str_in "password" (Text.lower narrative)) as bp.
  intros bp bc bl bs. split; [|split; [|split]].
  - destruct bs, bl, bc; simpl; tauto.
  - destruct bs, bl, bc; simpl; split; intros H; try discriminate; auto;
      destruct H; discriminate.
  - destruct bs, bl, bc, bp; simpl; intros H; try reflexivity;
      now contradiction H.
  - destruct bs, bl, bc, bp; simpl; intros H1 H2; try discriminate; reflexivity.
Qed.

(** ** Legacy format: the first element decides *)

Section FormatFacts.
Import Js UserStoryList.

(** X17.  Only the first element of the list decides the format.  A list
    that starts with an object or [null] is handed on unchanged, strings in
    it included; a list that starts with anything else has every element
    wrapped, objects included.  The empty list stays empty, a missing list
    throws, and a list that has been through the normalisation once is left
    unchanged by a second pass, with the length kept. *)
Theorem stories_format_decided_by_first
    (first : JsValue) (rest : list JsValue) :
  (typeof first = "object" ->
   stories (Some (first :: rest)) = inr (JsArray (first :: rest)))
  /\ (typeof first <> "object" ->
      stories (Some (first :: rest))
      = inr (JsArray (map wrap_legacy (first :: rest))))
  /\ stories (Some []) = inr (JsArray [])
  /\ (exists thrown, stories None = inl thrown)
  /\ (forall out,
         stories (Some (first :: rest)) = inr (JsArray out) ->
         stories (Some out) = inr (JsArray out)
         /\ List.length out = List.length (first :: rest)).
Proof.
  assert (Hobj : typeof first = "object" ->
                 stories (Some (first :: rest)) = inr (JsArray (first :: rest))).
  { intros Ht. unfold stories. rewrite isNewFormat_first, Ht. reflexivity. }
  assert (Hother : typeof first <> "object" ->
                   stories (Some (first :: rest))
                   = inr (JsArray (map wrap_legacy (first :: rest)))).
  { intros Ht. unfold stories. rewrite isNewFormat_first.
    destruct (String.eqb_spec (typeof first) "object"); [contradiction|].
    reflexivity. }
  split; [exact Hobj|]. split; [exact Hother|]. split; [reflexivity|].
  split; [eexists; reflexivity|].
  intros out Hout.
  destruct (String.eqb_spec (typeof first) "object") as [Ht|Ht].
  - rewrite (Hobj Ht) in Hout. injection Hout as <-. auto.
  - rewrite (Hother Ht) in Hout. injection Hout as <-.
    split; [|simpl; now rewrite length_map].
    cbn [map]. unfold stories. rewrite isNewFormat_first. reflexivity.
Qed.

End FormatFacts.

(** ** The further theorems at concrete inputs *)


(** "As a Project Manager, ..." in any letter case is the role "manager". *)
Lemma getRoleInfo_ignores_letter_case_witness :
  JsText.ascii_only "As a Project Manager, I want reports" = true
  /\ RoleBadge.getRoleInfo
       (JsText.toUpperCase "As a Project Manager, I want reports")
     = RoleBadge.getRoleInfo "As a Project Manager, I want reports".
Proof.
  assert (H : JsText.ascii_only "As a Project Manager, I want reports" = true)
    by reflexivity.
  split; [exact H|].
  exact (proj1 (proj2 (getRoleInfo_ignores_letter_case
                         "As a Project Manager, I want reports" H))).
Defined.

Lemma expanded_count_within_stories_witness :
  forallb (Expansion.on_a_card 3) MoreSamples.some_clicks = true
  /\ Expansion.size (Expansion.after_clicks 3 MoreSamples.some_clicks) <= 3
  /\ NoDup (Expansion.after_clicks 3 MoreSamples.some_clicks)
  /\ forall i,
       Expansion.has (Expansion.after_clicks 3 MoreSamples.some_clicks) i = true
       -> i < 3.
Proof.
  assert (H : forallb (Expansion.on_a_card 3) MoreSamples.some_clicks = true)
    by reflexivity.
  split; [exact H|].
  exact (expanded_count_within_stories 3 MoreSamples.some_clicks H).
Defined.

Lemma toggle_flips_one_card_witness :
  NoDup [2; 0]
  /\ (forall j,
         Expansion.has (Expansion.toggleStoryExpansion [2; 0] 1) j
         = if Nat.eqb j 1 then negb (Expansion.has [2; 0] 1)
           else Expansion.has [2; 0] j).
Proof.
  assert (H : NoDup [2; 0]).
  { constructor; [simpl; intros [H|[]]; discriminate|].
    constructor; [simpl; tauto | constructor]. }
  split; [exact H|].
  exact (proj1 (toggle_flips_one_card [2; 0] 1 H)).
Defined.

Lemma handleExport_one_call_one_message_witness :
  JiraExport.selectedProject Samples.ready <> ""
  /\ JiraExport.exporting
       (fst (JiraExport.handleExport Samples.accepting
               (Js.JsArray (Js.JsString "As a user, I want to log in" :: []))
               true Samples.ready)) = false.
Proof.
  assert (H : JiraExport.selectedProject Samples.ready <> "") by discriminate.
  split; [exact H|].
  pose proof (handleExport_one_call_one_message Samples.accepting
                (Js.JsString "As a user, I want to log in") [] true
                Samples.ready H) as W.
  cbv zeta in W. exact (proj1 (proj2 W)).
Defined.

Lemma handleExport_shows_server_detail_witness :
  JiraExport.selectedProject Samples.ready <> ""
  /\ (forall url body,
         MoreSamples.refusing url body = inl Samples.credentials_rejected)
  /\ JiraExport.success
       (fst (JiraExport.handleExport MoreSamples.refusing
               (Js.JsArray (Js.JsString "As a user, I want to log in" :: []))
               true Samples.ready)) = "".
Proof.
  assert (H : JiraExport.selectedProject Samples.ready <> "") by discriminate.
  assert (F : forall url body,
             MoreSamples.refusing url body = inl Samples.credentials_rejected)
    by reflexivity.
  split; [exact H|]. split; [exact F|].
  pose proof (handleExport_shows_server_detail MoreSamples.refusing
                (Js.JsString "As a user, I want to log in") [] true
                Samples.ready Samples.credentials_rejected H F) as W.
  cbv zeta in W. exact (proj1 W).
Defined.

(** ** Worked cases of the front end *)

(** A story for an administrator gets the badge of "admin". *)
Example scenario_administrator_badge :
  RoleBadge.getRoleInfo "As an administrator, I want to manage users"
  = RoleBadge.mkRoleInfo "user" "blue" RoleBadge.User
  /\ RoleBadge.getRoleInfo "As a System Administrator, I want audit logs"
     = RoleBadge.mkRoleInfo "admin" "green" RoleBadge.Shield.
Proof. split; vm_compute; reflexivity. Qed.

(** A text of 101 characters is shown as 103. *)
Example scenario_truncate_grows :
  String.length
    (HistoryText.truncateText (String.concat "" (repeat "x" 101)) None) = 103.
Proof. vm_compute. reflexivity. Qed.

(** File names and their extension test. *)
Example scenario_extensions :
  map Upload.isPdf ["spec.PDF"; "pdf"; "notes.pdf.txt"; "archive.tar."; "a.b.Pdf"]
  = [true; true; false; false; true].
Proof. vm_compute. reflexivity. Qed.

